(** * ELLA voice assistant (src/main.py): a shallow embedding and its properties

    The script is a thin loop around three external engines (Vosk, pyttsx3,
    OpenAI).  The engines are taken as parameters of a [World]; everything the
    script itself computes (string handling, control flow, exception handling,
    the order of the calls) is embedded as executable functions.

    Strings are [string]s whose characters are the code points below 256;
    Python's character tables ([str.isspace], [str.lower], [repr]) are
    written out for that range. *)

From Stdlib Require Import String Ascii List Bool NArith ZArith QArith Arith Lia.
From Stdlib.Strings Require Import Byte.
Import ListNotations.
Close Scope Q_scope.
Open Scope string_scope.

(* ===================================================================== *)
(** ** Python strings *)
(* ===================================================================== *)

Module PyStr.

(** Code point of a character. *)
Definition ord (c : ascii) : N := N_of_ascii c.

Definition in_range (lo hi n : N) : bool := ((lo <=? n) && (n <=? hi))%N.

(** [str.isspace] on one character: U+0009..U+000D, U+001C..U+001F, U+0020,
    U+0085 and U+00A0 are the whitespace code points below 256. *)
Definition isspace (c : ascii) : bool :=
  let n := ord c in
  in_range 9 13 n || in_range 28 32 n || (n =? 133)%N || (n =? 160)%N.

(** Upper-case letters below 256: A..Z, U+00C0..U+00D6, U+00D8..U+00DE. *)
Definition isupper (c : ascii) : bool :=
  let n := ord c in
  in_range 65 90 n || in_range 192 214 n || in_range 216 222 n.

(** [str.lower] on one character: every upper-case letter below 256 has its
    lower-case form 32 code points further. *)
Definition lower_char (c : ascii) : ascii :=
  if isupper c then ascii_of_N (ord c + 32) else c.

(** [s.lower()] *)
Fixpoint lower (s : string) : string :=
  match s with
  | EmptyString => EmptyString
  | String c s' => String (lower_char c) (lower s')
  end.

(** [c in chars] for a character *)
Fixpoint mem (c : ascii) (chars : string) : bool :=
  match chars with
  | EmptyString => false
  | String d chars' => Ascii.eqb c d || mem c chars'
  end.

(** Removal of the leading characters that satisfy [p]. *)
Fixpoint lstrip_by (p : ascii -> bool) (s : string) : string :=
  match s with
  | EmptyString => EmptyString
  | String c s' => if p c then lstrip_by p s' else s
  end.

(** Removal of the trailing characters that satisfy [p]. *)
Fixpoint rstrip_by (p : ascii -> bool) (s : string) : string :=
  match s with
  | EmptyString => EmptyString
  | String c s' =>
      match rstrip_by p s' with
      | EmptyString => if p c then EmptyString else String c EmptyString
      | r => String c r
      end
  end.

(** [s.strip()]: whitespace removed at both ends. *)
Definition strip (s : string) : string := lstrip_by isspace (rstrip_by isspace s).

(** [s.lstrip(chars)]: leading characters that occur in [chars] removed. *)
Definition lstrip (chars s : string) : string := lstrip_by (fun c => mem c chars) s.

(** [s.rstrip(chars)] *)
Definition rstrip (chars s : string) : string := rstrip_by (fun c => mem c chars) s.

(** [s.startswith(p)] *)
Definition startswith (p s : string) : bool := String.prefix p s.

(** [s.endswith(p)] for a one-character [p] *)
Fixpoint endswith_char (c : ascii) (s : string) : bool :=
  match s with
  | EmptyString => false
  | String d EmptyString => Ascii.eqb c d
  | String _ s' => endswith_char c s'
  end.

(** [s[n:]] for [n >= 0] *)
Fixpoint slice_from (n : nat) (s : string) : string :=
  match n, s with
  | O, _ => s
  | S n', String _ s' => slice_from n' s'
  | S _, EmptyString => EmptyString
  end.

(** Truth value of a string: [bool(s)] *)
Definition truthy (s : string) : bool :=
  match s with EmptyString => false | _ => true end.

(** Substring test, [needle in s]. *)
Fixpoint contains (needle s : string) : bool :=
  String.prefix needle s ||
  match s with
  | EmptyString => false
  | String _ s' => contains needle s'
  end.

(** First and last characters. *)
Definition first_char (s : string) : option ascii :=
  match s with EmptyString => None | String c _ => Some c end.

Fixpoint last_char (s : string) : option ascii :=
  match s with
  | EmptyString => None
  | String c EmptyString => Some c
  | String _ s' => last_char s'
  end.

End PyStr.

(* ===================================================================== *)
(** ** [repr] of a string and the POSIX path functions *)
(* ===================================================================== *)

Module PyRepr.
Import PyStr.

Definition squote : ascii := "'"%char.
Definition dquote : ascii := ascii_of_nat 34.
Definition backslash : ascii := "\"%char.

Definition hex_digit (n : N) : ascii :=
  if (n <? 10)%N then ascii_of_N (48 + n) else ascii_of_N (87 + n).

(** The escape [\xhh] of a code point below 256. *)
Definition hex_escape (c : ascii) : string :=
  let n := ord c in
  String backslash (String "x"%char
    (String (hex_digit (n / 16)) (String (hex_digit (n mod 16)) EmptyString))).

(** [str.isprintable] below 256: the controls, U+007F..U+00A0 and U+00AD
    are not printable. *)
Definition isprintable (c : ascii) : bool :=
  let n := ord c in
  in_range 32 126 n || (in_range 161 255 n && negb (n =? 173)%N).

(** One character of [repr(s)], written with quote character [q]. *)
Definition repr_char (q c : ascii) : string :=
  if Ascii.eqb c q || Ascii.eqb c backslash then String backslash (String c EmptyString)
  else if (ord c =? 9)%N then String backslash (String "t"%char EmptyString)
  else if (ord c =? 10)%N then String backslash (String "n"%char EmptyString)
  else if (ord c =? 13)%N then String backslash (String "r"%char EmptyString)
  else if isprintable c then String c EmptyString
  else hex_escape c.

Fixpoint repr_body (q : ascii) (s : string) : string :=
  match s with
  | EmptyString => EmptyString
  | String c s' => repr_char q c ++ repr_body q s'
  end.

(** [repr(s)]: single quotes, unless the string holds a single quote and no
    double quote. *)
Definition repr (s : string) : string :=
  let q := if mem squote s && negb (mem dquote s) then dquote else squote in
  String q (repr_body q s ++ String q EmptyString).

End PyRepr.

Module PosixPath.
Import PyStr.

Definition sep : ascii := "/"%char.

(** [p[:p.rfind('/') + 1]]: the part of [p] up to and including its last
    slash. *)
Fixpoint head_upto_last_sep (p : string) : string :=
  match p with
  | EmptyString => EmptyString
  | String c p' =>
      match head_upto_last_sep p' with
      | EmptyString => if Ascii.eqb c sep then String c EmptyString else EmptyString
      | h => String c h
      end
  end.

Fixpoint all_sep (s : string) : bool :=
  match s with
  | EmptyString => true
  | String c s' => Ascii.eqb c sep && all_sep s'
  end.

(** [os.path.dirname(p)] *)
Definition dirname (p : string) : string :=
  let head := head_upto_last_sep p in
  if truthy head && negb (all_sep head)
  then rstrip (String sep EmptyString) head
  else head.

(** One round of the loop of [os.path.join]. *)
Definition join_step (path b : string) : string :=
  if startswith (String sep EmptyString) b then b
  else if negb (truthy path) || endswith_char sep path then path ++ b
  else path ++ String sep b.

(** [os.path.join(a, *p)] *)
Definition join (a : string) (p : list string) : string := fold_left join_step p a.

End PosixPath.

(* ===================================================================== *)
(** ** Exceptions and decoded JSON values *)
(* ===================================================================== *)

(** The exception classes the script meets.  [KeyboardInterrupt] derives from
    [BaseException] only; the others derive from [Exception]. *)
Inductive exc_class : Type :=
| FileNotFoundError
| AttributeError
| KeyError
| IndexError
| TypeError
| OtherException (name : string)
| KeyboardInterrupt.

Record exc : Type := mkExc { exc_type : exc_class; exc_str : string }.

(** [isinstance(e, Exception)] *)
Definition is_Exception (e : exc) : bool :=
  match exc_type e with
  | KeyboardInterrupt => false
  | _ => true
  end.

(** [isinstance(e, FileNotFoundError)] *)
Definition is_FileNotFoundError (e : exc) : bool :=
  match exc_type e with
  | FileNotFoundError => true
  | _ => false
  end.

(** The result of evaluating a Python expression. *)
Inductive pyres (A : Type) : Type :=
| Val (a : A)
| Exn (e : exc).
Arguments Val {A} a.
Arguments Exn {A} e.

(** A value decoded from JSON (what [json.loads] returns, and what the chat
    completion response is made of). *)
#[warnings="-register-all"] Inductive json : Type :=
| JNull
| JBool (b : bool)
| JNum (n : Z)
| JStr (s : string)
| JList (l : list json)
| JDict (d : list (string * json)).

Module PyVal.

Fixpoint dict_lookup (d : list (string * json)) (k : string) : option json :=
  match d with
  | [] => None
  | (k', v) :: d' => if String.eqb k k' then Some v else dict_lookup d' k
  end.

(** [v[k]] for a string key [k] *)
Definition getitem_str (v : json) (k : string) : pyres json :=
  match v with
  | JDict d =>
      match dict_lookup d k with
      | Some x => Val x
      | None => Exn (mkExc KeyError (PyRepr.repr k))
      end
  | JList _ => Exn (mkExc TypeError "list indices must be integers or slices, not str")
  | JStr _ => Exn (mkExc TypeError "string indices must be integers")
  | _ => Exn (mkExc TypeError "object is not subscriptable")
  end.

(** [v[0]] *)
Definition getitem_0 (v : json) : pyres json :=
  match v with
  | JList (x :: _) => Val x
  | JList [] => Exn (mkExc IndexError "list index out of range")
  | JStr (String c _) => Val (JStr (String c EmptyString))
  | JStr EmptyString => Exn (mkExc IndexError "string index out of range")
  | JDict _ => Exn (mkExc KeyError "0")
  | _ => Exn (mkExc TypeError "object is not subscriptable")
  end.

(** [v.strip()] *)
Definition call_strip (v : json) : pyres string :=
  match v with
  | JStr s => Val (PyStr.strip s)
  | _ => Exn (mkExc AttributeError "object has no attribute 'strip'")
  end.

(** [v.get(k, default)] *)
Definition call_get (v : json) (k : string) (default : json) : pyres json :=
  match v with
  | JDict d =>
      match dict_lookup d k with
      | Some x => Val x
      | None => Val default
      end
  | _ => Exn (mkExc AttributeError "object has no attribute 'get'")
  end.

End PyVal.

(* ===================================================================== *)
(** ** The world around the script, its events, and the monad of the script *)
(* ===================================================================== *)

(** An audio block, [bytes(indata)]. *)
Definition frame : Type := list byte.

(** The keyword arguments of [openai.ChatCompletion.create], with the API key
    the module holds at the time of the call. *)
Record request : Type := mkRequest {
  req_api_key : string;
  req_model : string;
  req_messages : list (string * string);   (* role, content *)
  req_temperature : Q
}.

(** What the script does to the outside, in the order it does it. *)
Inductive event : Type :=
| Print (s : string)                 (* print(s) *)
| PrintErr (s : string)              (* print(s, file=sys.stderr) *)
| LoadModel (dir : string)           (* vosk.Model(dir) *)
| TtsInit                            (* pyttsx3.init() *)
| Say (text : string)                (* tts_engine.say(text) *)
| RunAndWait                         (* tts_engine.runAndWait() *)
| NewRecognizer (samplerate : N)     (* vosk.KaldiRecognizer(model, samplerate); rec.SetWords(True) *)
| StreamOpen                         (* entering the with sd.RawInputStream block *)
| StreamClose                        (* leaving it *)
| Put (f : frame)                    (* q.put(f), on the audio thread *)
| Get (f : frame)                    (* q.get() returned f, on the main thread *)
| SetApiKey (k : string)             (* openai.api_key = k *)
| Request (r : request).             (* openai.ChatCompletion.create(...) *)

(** One scheduling decision while the input stream is open.  The queue is the
    only object the two threads share, and [queue.Queue] makes [put] and [get]
    atomic, so an interleaving is a sequence of these two actions:
    the audio driver runs [callback(indata, frames, time, status)], or the
    main thread runs one round of [while True] (which blocks, here: does
    nothing, when the queue is empty).  [status] is [None] for a flag set that
    is false, and [Some s] for one that is true and prints as [s]. *)
Inductive action : Type :=
| Callback (indata : frame) (status : option string)
| Consumer.

(** The engines and the operating system.  A recognizer is a function of the
    frames it was fed since it was built: [AcceptWaveform h] is what
    [rec.AcceptWaveform] returns for the last frame of [h], and [Result h] is
    [json.loads(rec.Result())] at that point.  [ChatCompletion_create n r] is
    what the [n]-th call (from 0) of [openai.ChatCompletion.create] does with
    arguments [r]. *)
Record World : Type := mkWorld {
  dunder_file : string;                            (* __file__ *)
  isdir : string -> bool;                          (* os.path.isdir *)
  vosk_Model : string -> option exc;               (* vosk.Model(dir): None when it loads *)
  AcceptWaveform : list frame -> bool;
  Result : list frame -> json;
  OPENAI_AVAILABLE : bool;                         (* _OPENAI_AVAILABLE *)
  getenv : string -> option string;                (* os.getenv *)
  ChatCompletion_create : nat -> request -> pyres json
}.

(** The part of the world that changes: the audio schedule still to come and
    the number of completion requests made. *)
Record state : Type := mkState {
  pending : list action;
  requests : nat
}.

(** How a computation stands when it is observed: it returned, it raised, or
    it is still running (it waits for audio that the schedule does not hold, or
    the loop was observed for a bounded number of rounds). *)
Inductive outcome (A : Type) : Type :=
| Ok (a : A)
| Raise (e : exc)
| Running.
Arguments Ok {A} a.
Arguments Raise {A} e.
Arguments Running {A}.

Record run (A : Type) : Type := mkRun {
  trace : list event;
  res : outcome A;
  final : state
}.
Arguments mkRun {A} trace res final.
Arguments trace {A} r.
Arguments res {A} r.
Arguments final {A} r.

Definition M (A : Type) : Type := state -> run A.

Definition ret {A} (a : A) : M A := fun st => mkRun [] (Ok a) st.

Definition raise {A} (e : exc) : M A := fun st => mkRun [] (Raise e) st.

Definition emit (ev : event) : M unit := fun st => mkRun [ev] (Ok tt) st.

Definition bind {A B} (m : M A) (k : A -> M B) : M B :=
  fun st =>
    let r := m st in
    match res r with
    | Ok a => let r' := k a (final r) in mkRun (trace r ++ trace r')%list (res r') (final r')
    | Raise e => mkRun (trace r) (Raise e) (final r)
    | Running => mkRun (trace r) Running (final r)
    end.

(** The result of a pure expression, as a computation. *)
Definition lift {A} (v : pyres A) : M A :=
  match v with
  | Val a => ret a
  | Exn e => raise e
  end.

(** The body of a [try]: its exception, if any, becomes a value for the
    [except] clauses to look at. *)
Definition attempt {A} (m : M A) : M (pyres A) :=
  fun st =>
    let r := m st in
    match res r with
    | Ok a => mkRun (trace r) (Ok (Val a)) (final r)
    | Raise e => mkRun (trace r) (Ok (Exn e)) (final r)
    | Running => mkRun (trace r) Running (final r)
    end.

Declare Scope py_scope.
Delimit Scope py_scope with py.
Notation "x <- m ;; k" := (bind m (fun x => k))
  (at level 61, m at next level, right associativity) : py_scope.
Notation "m ;; k" := (bind m (fun _ => k))
  (at level 61, right associativity) : py_scope.
Open Scope py_scope.

(** [e >>= f] on pure results: [f] applied unless [e] raised. *)
Definition and_then {A B} (v : pyres A) (f : A -> pyres B) : pyres B :=
  match v with
  | Val a => f a
  | Exn e => Exn e
  end.

(* ===================================================================== *)
(** ** The script *)
(* ===================================================================== *)

Section Script.

Variable w : World.

(** [speak(text, tts_engine)] *)
Definition speak (text : string) : M unit :=
  emit (Say text) ;;
  emit RunAndWait.

(** The message of the [FileNotFoundError] of [load_vosk_model]. *)
Definition model_not_found_message (model_dir : string) : string :=
  "Vosk model directory " ++ PyRepr.repr model_dir ++ " not found. "
  ++ "Download a model from https://alphacephei.com/vosk/models and "
  ++ "extract it into this directory.".

(** [load_vosk_model(model_dir)]; the model it returns is known by its
    directory. *)
Definition load_vosk_model (model_dir : string) : M string :=
  if negb (isdir w model_dir) then
    raise (mkExc FileNotFoundError (model_not_found_message model_dir))
  else
    emit (LoadModel model_dir) ;;
    match vosk_Model w model_dir with
    | None => ret model_dir
    | Some e => raise e
    end.

(** What the callback prints and queues. *)
Definition callback_events (indata : frame) (status : option string) : list event :=
  (match status with
   | Some s => [PrintErr ("Audio input status: " ++ s)]
   | None => []
   end ++ [Put indata])%list.

(** [result_dict.get('text', '').strip()] *)
Definition result_text (result_dict : json) : pyres string :=
  and_then (PyVal.call_get result_dict "text" (JStr EmptyString)) PyVal.call_strip.

(** The [while True] loop of [listen_and_transcribe] under a schedule: [q] is
    the queue, [fed] the frames the recognizer has accepted so far.  The result
    holds the events, how the loop stands, the schedule that is left and the
    queue as it is then. *)
Fixpoint listen_loop (q : list frame) (fed : list frame) (sched : list action)
  : list event * outcome string * list action * list frame :=
  match sched with
  | [] => ([], Running, [], q)
  | Callback indata status :: sched' =>
      let '(tr, o, rest, q_end) := listen_loop (q ++ [indata])%list fed sched' in
      ((callback_events indata status ++ tr)%list, o, rest, q_end)
  | Consumer :: sched' =>
      match q with
      | [] => listen_loop q fed sched'
      | data :: q' =>
          let fed' := (fed ++ [data])%list in
          if AcceptWaveform w fed' then
            match result_text (Result w fed') with
            | Exn e => ([Get data], Raise e, sched', q')
            | Val text =>
                if PyStr.truthy text then
                  ([Get data], Ok (PyStr.lower text), sched', q')
                else
                  let '(tr, o, rest, q_end) := listen_loop q' fed' sched' in
                  (Get data :: tr, o, rest, q_end)
            end
          else
            let '(tr, o, rest, q_end) := listen_loop q' fed' sched' in
            (Get data :: tr, o, rest, q_end)
      end
  end.

(** Leaving the [with] block, by [return] or by an exception, closes the
    stream. *)
Definition stream_exit {A} (o : outcome A) : list event :=
  match o with
  | Running => []
  | _ => [StreamClose]
  end.

(** [listen_and_transcribe(model, samplerate)] *)
Definition listen_and_transcribe (model : string) (samplerate : N) : M string :=
  fun st =>
    let '(tr, o, rest, _) := listen_loop [] [] (pending st) in
    mkRun ([NewRecognizer samplerate; StreamOpen] ++ tr ++ stream_exit o)%list
          o
          (mkState rest (requests st)).

(** The call [openai.ChatCompletion.create(model=..., messages=..., temperature=0.5)]. *)
Definition create_request (api_key prompt : string) : request :=
  mkRequest api_key "gpt-3.5-turbo"
    [("system", "You are ELLA, a helpful voice assistant."); ("user", prompt)]
    (1 # 2)%Q.

Definition ChatCompletion_create_call (r : request) : M json :=
  fun st =>
    mkRun [Request r]
          match ChatCompletion_create w (requests st) r with
          | Val v => Ok v
          | Exn e => Raise e
          end
          (mkState (pending st) (S (requests st))).

(** [response['choices'][0]['message']['content'].strip()] *)
Definition response_content (response : json) : pyres string :=
  and_then (PyVal.getitem_str response "choices") (fun choices =>
  and_then (PyVal.getitem_0 choices) (fun choice =>
  and_then (PyVal.getitem_str choice "message") (fun message =>
  and_then (PyVal.getitem_str message "content") PyVal.call_strip))).

Definition openai_unavailable_message : string :=
  "The ChatGPT API is not available in this environment.".

Definition no_api_key_message : string :=
  "No OpenAI API key found. Please set the OPENAI_API_KEY environment variable.".

Definition unexpected_response_message : string :=
  "I received an unexpected response from ChatGPT.".

(** [query_chatgpt(prompt)] *)
Definition query_chatgpt (prompt : string) : M string :=
  if negb (OPENAI_AVAILABLE w) then ret openai_unavailable_message
  else
    match getenv w "OPENAI_API_KEY" with
    | None | Some EmptyString => ret no_api_key_message
    | Some api_key =>
        emit (SetApiKey api_key) ;;
        r <- attempt (ChatCompletion_create_call (create_request api_key prompt)) ;;
        match r with
        | Exn exc =>
            if is_Exception exc then ret ("Error contacting ChatGPT: " ++ exc_str exc)
            else raise exc
        | Val response =>
            match response_content response with
            | Val content => ret content
            | Exn e =>
                if is_Exception e then ret unexpected_response_message
                else raise e
            end
        end
    end.

(** The activation word and the expression
    [text[len('ella'):].strip().lstrip(',.:;!')] of [main]. *)
Definition wake : string := "ella".

Definition extract_query (text : string) : string :=
  PyStr.lstrip ",.:;!" (PyStr.strip (PyStr.slice_from (String.length wake) text)).

(** What one round of the loop of [main] does with the text it heard, after
    which the loop goes round again. *)
Definition dispatch (text : string) : M unit :=
  if negb (PyStr.truthy text) then ret tt
  else if negb (PyStr.startswith wake text) then ret tt
  else
    let query := extract_query text in
    if negb (PyStr.truthy query) then speak "Yes?"
    else
      emit (Print ("User: " ++ query)) ;;
      speak "Thinking..." ;;
      answer <- query_chatgpt query ;;
      emit (Print ("ELLA: " ++ answer)) ;;
      speak answer.

Definition listening_prompt : string :=
  "Listening... (say the activation word to ask a question)".

(** The first [rounds] rounds of the [while True] loop of [main]. *)
Fixpoint main_loop (model : string) (rounds : nat) : M unit :=
  match rounds with
  | O => fun st => mkRun [] Running st
  | S rounds' =>
      emit (Print listening_prompt) ;;
      text <- listen_and_transcribe model 16000%N ;;
      dispatch text ;;
      main_loop model rounds'
  end.

Definition model_dir : string :=
  PosixPath.join (PosixPath.dirname (dunder_file w)) [".."; "models"; "vosk-en"].

Definition greeting : string :=
  "Hello, I am ELLA. Say the activation word followed by your question and I will respond.".

Definition download_hint : string :=
  "Please download a Vosk model and place it in the specified directory.".

(** [main()], its loop observed for [rounds] rounds. *)
Definition main (rounds : nat) : M unit :=
  r <- attempt (load_vosk_model model_dir) ;;
  match r with
  | Exn e =>
      if is_FileNotFoundError e then
        emit (PrintErr (exc_str e)) ;;
        emit (Print download_hint) ;;
        ret tt
      else raise e
  | Val model =>
      emit TtsInit ;;
      speak greeting ;;
      main_loop model rounds
  end.

(** The exit status of [python main.py] once [main()] has ended: 0 when it
    returned; an uncaught exception gives 1, and an uncaught
    [KeyboardInterrupt] 130 (the process ends by the signal). *)
Definition exit_status (o : outcome unit) : option N :=
  match o with
  | Ok _ => Some 0%N
  | Raise e => if is_Exception e then Some 1%N else Some 130%N
  | Running => None
  end.

End Script.

(* ===================================================================== *)
(** ** What a trace shows *)
(* ===================================================================== *)

Open Scope list_scope.

(** The frames queued, in the order of the [put]s. *)
Fixpoint pushed (tr : list event) : list frame :=
  match tr with
  | [] => []
  | Put f :: tr' => f :: pushed tr'
  | _ :: tr' => pushed tr'
  end.

(** The frames taken from the queue, in the order of the [get]s. *)
Fixpoint popped (tr : list event) : list frame :=
  match tr with
  | [] => []
  | Get f :: tr' => f :: popped tr'
  | _ :: tr' => popped tr'
  end.

(** The texts given to [tts_engine.say], in order. *)
Fixpoint spoken (tr : list event) : list string :=
  match tr with
  | [] => []
  | Say text :: tr' => text :: spoken tr'
  | _ :: tr' => spoken tr'
  end.

(** The completion requests made, in order. *)
Fixpoint requested (tr : list event) : list request :=
  match tr with
  | [] => []
  | Request r :: tr' => r :: requested tr'
  | _ :: tr' => requested tr'
  end.

(** The recognizers built. *)
Fixpoint recognizers (tr : list event) : nat :=
  match tr with
  | [] => 0
  | NewRecognizer _ :: tr' => S (recognizers tr')
  | _ :: tr' => recognizers tr'
  end.

(** The input streams opened. *)
Fixpoint streams_opened (tr : list event) : nat :=
  match tr with
  | [] => 0
  | StreamOpen :: tr' => S (streams_opened tr')
  | _ :: tr' => streams_opened tr'
  end.


(** The lines printed on standard error, in order. *)
Fixpoint printed_err (tr : list event) : list string :=
  match tr with
  | [] => []
  | PrintErr s :: tr' => s :: printed_err tr'
  | _ :: tr' => printed_err tr'
  end.

(** The input streams closed. *)
Fixpoint streams_closed (tr : list event) : nat :=
  match tr with
  | [] => 0
  | StreamClose :: tr' => S (streams_closed tr')
  | _ :: tr' => streams_closed tr'
  end.

(** The blocks that the callbacks of a schedule hand over, in order. *)
Fixpoint callback_frames (sched : list action) : list frame :=
  match sched with
  | [] => []
  | Callback indata _ :: sched' => indata :: callback_frames sched'
  | Consumer :: sched' => callback_frames sched'
  end.

(** The diagnostics that the callbacks of a schedule print: one line for each
    callback whose status is true. *)
Fixpoint status_lines (sched : list action) : list string :=
  match sched with
  | [] => []
  | Callback _ (Some s) :: sched' => ("Audio input status: " ++ s)%string :: status_lines sched'
  | _ :: sched' => status_lines sched'
  end.

(** The least number of scheduled actions before the loop of
    [listen_and_transcribe] can return with queue [q]: a round of the
    consumer, and before it a callback when the queue is empty. *)
Definition steps_needed (q : list frame) : nat :=
  match q with [] => 2 | _ => 1 end.

(** All characters of a string satisfy [p]. *)
Fixpoint all_chars (p : ascii -> bool) (s : string) : bool :=
  match s with
  | EmptyString => true
  | String c s' => p c && all_chars p s'
  end.

(* ===================================================================== *)
(** ** Sample worlds *)
(* ===================================================================== *)

Module Samples.

(** The driver hands over a block whose bytes spell what was said. *)
Definition heard (s : string) : action := Callback (list_byte_of_string s) None.

(** A recognizer that ends an utterance at every frame and reads its text off
    the bytes of the frame. *)
Definition echo_result (fed : list frame) : json :=
  JDict [("text", JStr (string_of_list_byte (last fed [])))].

Definition noon_response : json :=
  JDict [("choices",
          JList [JDict [("message", JDict [("content", JStr " It is noon. ")])]])].

(** An installation with its model, the openai module and a key. *)
Definition pi_world : World :=
  mkWorld "/home/pi/ella/src/main.py"
          (fun d => String.eqb d "/home/pi/ella/src/../models/vosk-en")
          (fun _ => None)
          (fun _ => true)
          echo_result
          true
          (fun k => if String.eqb k "OPENAI_API_KEY" then Some "sk-test" else None)
          (fun _ _ => Val noon_response).

(** The same installation before the model was downloaded. *)
Definition no_model_world : World :=
  mkWorld (dunder_file pi_world) (fun _ => false) (vosk_Model pi_world)
          (AcceptWaveform pi_world) (Result pi_world) (OPENAI_AVAILABLE pi_world)
          (getenv pi_world) (ChatCompletion_create pi_world).

(** The same installation without the openai module and without a key. *)
Definition offline_world : World :=
  mkWorld (dunder_file pi_world) (isdir pi_world) (vosk_Model pi_world)
          (AcceptWaveform pi_world) (Result pi_world) false
          (fun _ => None) (ChatCompletion_create pi_world).

(** The same installation with the module but without a key. *)
Definition keyless_world : World :=
  mkWorld (dunder_file pi_world) (isdir pi_world) (vosk_Model pi_world)
          (AcceptWaveform pi_world) (Result pi_world) true
          (fun _ => None) (ChatCompletion_create pi_world).

(** The same installation with a network that refuses the connection. *)
Definition unreachable_world : World :=
  mkWorld (dunder_file pi_world) (isdir pi_world) (vosk_Model pi_world)
          (AcceptWaveform pi_world) (Result pi_world) true
          (getenv pi_world)
          (fun _ _ => Exn (mkExc (OtherException "APIConnectionError")
                                 "Error communicating with OpenAI")).

Definition start (sched : list action) : state := mkState sched 0.

(** The same installation with a model directory that Vosk cannot read. *)
Definition broken_model_world : World :=
  mkWorld (dunder_file pi_world) (isdir pi_world)
          (fun _ => Some (mkExc (OtherException "Exception") "Failed to create a model"))
          (AcceptWaveform pi_world) (Result pi_world) (OPENAI_AVAILABLE pi_world)
          (getenv pi_world) (ChatCompletion_create pi_world).

(** The same installation with a user who interrupts the completion call. *)
Definition interrupted_world : World :=
  mkWorld (dunder_file pi_world) (isdir pi_world) (vosk_Model pi_world)
          (AcceptWaveform pi_world) (Result pi_world) true
          (getenv pi_world)
          (fun _ _ => Exn (mkExc KeyboardInterrupt EmptyString)).

(** The same installation with a service that answers without any choice. *)
Definition no_choice_world : World :=
  mkWorld (dunder_file pi_world) (isdir pi_world) (vosk_Model pi_world)
          (AcceptWaveform pi_world) (Result pi_world) true
          (getenv pi_world)
          (fun _ _ => Val (JDict [("choices", JList [])])).

(** The same installation with a recognizer that never ends an utterance. *)
Definition deaf_world : World :=
  mkWorld (dunder_file pi_world) (isdir pi_world) (vosk_Model pi_world)
          (fun _ => false) (Result pi_world) (OPENAI_AVAILABLE pi_world)
          (getenv pi_world) (ChatCompletion_create pi_world).


(** A driver report of an input overflow with the block. *)
Definition overflowed (s : string) : action :=
  Callback (list_byte_of_string s) (Some "input overflow").

End Samples.

(* ===================================================================== *)
(** ** Facts about the string functions *)
(* ===================================================================== *)

Module PyStrFacts.
Import PyStr.
Local Open Scope string_scope.

Ltac each_char c := destruct c as [[] [] [] [] [] [] [] []]; vm_compute; reflexivity.

Lemma isspace_lower_char (c : ascii) : isspace (lower_char c) = isspace c.
Proof. each_char c. Qed.

Lemma isupper_lower_char (c : ascii) : isupper (lower_char c) = false.
Proof. each_char c. Qed.

Lemma lower_char_idem (c : ascii) : lower_char (lower_char c) = lower_char c.
Proof. unfold lower_char at 1. now rewrite isupper_lower_char. Qed.

Lemma lower_idem (s : string) : lower (lower s) = lower s.
Proof.
  induction s as [|c s IH]; simpl; [reflexivity|].
  now rewrite lower_char_idem, IH.
Qed.

Lemma lower_empty_iff (s : string) : lower s = EmptyString <-> s = EmptyString.
Proof. destruct s; simpl; split; congruence. Qed.

Lemma first_char_lower (s : string) :
  first_char (lower s) = option_map lower_char (first_char s).
Proof. destruct s; reflexivity. Qed.

Lemma last_char_lower (s : string) :
  last_char (lower s) = option_map lower_char (last_char s).
Proof.
  induction s as [|c s IH]; [reflexivity|].
  destruct s as [|d s]; [reflexivity|].
  exact IH.
Qed.

Lemma last_char_none (s : string) : last_char s = None -> s = EmptyString.
Proof.
  induction s as [|c s IH]; [reflexivity|].
  destruct s as [|d s]; [discriminate|].
  intros H. apply IH in H. discriminate.
Qed.

Section Strip.

Variable p : ascii -> bool.

(** What [lstrip_by] leaves does not start with a character of [p]. *)
Lemma lstrip_by_first (s : string) (c : ascii) :
  first_char (lstrip_by p s) = Some c -> p c = false.
Proof.
  induction s as [|d s IH]; simpl; [discriminate|].
  destruct (p d) eqn:E; [exact IH|].
  simpl. intros H. now inversion H; subst.
Qed.

(** What [rstrip_by] leaves does not end with a character of [p]. *)
Lemma rstrip_by_last (s : string) (c : ascii) :
  last_char (rstrip_by p s) = Some c -> p c = false.
Proof.
  induction s as [|d s IH]; simpl; [discriminate|].
  destruct (rstrip_by p s) as [|e r] eqn:E.
  - destruct (p d) eqn:Ed; simpl; [discriminate|].
    intros H. now inversion H; subst.
  - exact IH.
Qed.

(** [lstrip_by] never reaches a last character that is not in [p]. *)
Lemma lstrip_by_last (s : string) (c : ascii) :
  last_char s = Some c -> p c = false -> last_char (lstrip_by p s) = Some c.
Proof.
  induction s as [|d s IH]; [discriminate|].
  intros Hl Hc. simpl. destruct (p d) eqn:Ed; [|exact Hl].
  destruct s as [|e s].
  - simpl in Hl. inversion Hl; subst. congruence.
  - apply IH; assumption.
Qed.

Lemma lstrip_by_fixed (s : string) :
  match first_char s with Some c => p c = false | None => True end ->
  lstrip_by p s = s.
Proof. destruct s as [|c s]; simpl; [reflexivity|]. now intros ->. Qed.

Lemma rstrip_by_fixed (s : string) :
  match last_char s with Some c => p c = false | None => True end ->
  rstrip_by p s = s.
Proof.
  induction s as [|c s IH]; [reflexivity|].
  destruct s as [|d s].
  - simpl. now intros ->.
  - intros H. change (rstrip_by p (String c (String d s)))
      with (match rstrip_by p (String d s) with
            | EmptyString => if p c then EmptyString else String c EmptyString
            | r => String c r
            end).
    rewrite IH by exact H. reflexivity.
Qed.

End Strip.

(** A string that [strip] returns and that is not empty starts and ends with
    characters that are not whitespace. *)
Lemma strip_edges (s : string) :
  strip s <> EmptyString ->
  exists a b, first_char (strip s) = Some a /\ last_char (strip s) = Some b
              /\ isspace a = false /\ isspace b = false.
Proof.
  intros Hne. unfold strip in *.
  destruct (first_char (lstrip_by isspace (rstrip_by isspace s))) as [a|] eqn:Ha.
  2:{ destruct (lstrip_by isspace (rstrip_by isspace s)); [congruence|discriminate]. }
  destruct (last_char (rstrip_by isspace s)) as [b|] eqn:Hb.
  2:{ apply last_char_none in Hb. rewrite Hb in Hne. simpl in Hne. congruence. }
  pose proof (rstrip_by_last isspace _ _ Hb) as Hsb.
  exists a, b. repeat split.
  - now apply lstrip_by_last.
  - now apply (lstrip_by_first isspace (rstrip_by isspace s)).
  - exact Hsb.
Qed.

(** A string without whitespace at its two ends is a fixed point of [strip]. *)
Lemma strip_fixed (s : string) (a b : ascii) :
  first_char s = Some a -> last_char s = Some b ->
  isspace a = false -> isspace b = false -> strip s = s.
Proof.
  intros Ha Hb Hsa Hsb. unfold strip.
  rewrite rstrip_by_fixed by now rewrite Hb.
  apply lstrip_by_fixed. now rewrite Ha.
Qed.

Lemma prefix_app (x y : string) : String.prefix x (x ++ y) = true.
Proof.
  induction x as [|c x IH]; simpl; [now destruct y|].
  destruct (ascii_dec c c); [exact IH|congruence].
Qed.

Lemma contains_prefix (x s : string) : String.prefix x s = true -> contains x s = true.
Proof. intros H. destruct s; cbn [contains]; now rewrite H. Qed.

Lemma contains_app (x a b : string) : contains x (a ++ x ++ b) = true.
Proof.
  induction a as [|c a IH].
  - apply contains_prefix. exact (prefix_app x b).
  - cbn [append contains]. rewrite IH. apply orb_true_r.
Qed.

Lemma startswith_split (p s : string) :
  startswith p s = true -> s = p ++ slice_from (String.length p) s.
Proof.
  unfold startswith. revert s.
  induction p as [|c p IH]; intros s H; simpl; [reflexivity|].
  destruct s as [|d s]; simpl in H; [discriminate|].
  destruct (ascii_dec c d); [subst|discriminate].
  simpl. f_equal. now apply IH.
Qed.

Lemma slice_from_app (p s : string) : slice_from (String.length p) (p ++ s) = s.
Proof. induction p as [|c p IH]; simpl; [reflexivity|exact IH]. Qed.

End PyStrFacts.

Section TraceFacts.

Lemma pushed_app (a b : list event) : pushed (a ++ b) = pushed a ++ pushed b.
Proof.
  induction a as [|ev a IH]; [reflexivity|].
  destruct ev; simpl; rewrite IH; reflexivity.
Qed.

Lemma popped_app (a b : list event) : popped (a ++ b) = popped a ++ popped b.
Proof.
  induction a as [|ev a IH]; [reflexivity|].
  destruct ev; simpl; rewrite IH; reflexivity.
Qed.

Lemma spoken_app (a b : list event) : spoken (a ++ b) = spoken a ++ spoken b.
Proof.
  induction a as [|ev a IH]; [reflexivity|].
  destruct ev; simpl; rewrite IH; reflexivity.
Qed.

Lemma requested_app (a b : list event) : requested (a ++ b) = requested a ++ requested b.
Proof.
  induction a as [|ev a IH]; [reflexivity|].
  destruct ev; simpl; rewrite IH; reflexivity.
Qed.

End TraceFacts.

(* ===================================================================== *)
(** ** The capture loop *)
(* ===================================================================== *)

Section ListenFacts.

Variable w : World.

Lemma callback_events_pushed (indata : frame) (status : option string) :
  pushed (callback_events indata status) = [indata]
  /\ popped (callback_events indata status) = []
  /\ spoken (callback_events indata status) = []
  /\ requested (callback_events indata status) = [].
Proof. destruct status; repeat split; reflexivity. Qed.

(** The queue hands frames over in the order they came: at any time, what
    was in the queue at the start followed by what was pushed is what was
    popped followed by what the queue still holds. *)
Lemma listen_loop_fifo (sched : list action) :
  forall (q fed : list frame) tr o rest q_end,
    listen_loop w q fed sched = (tr, o, rest, q_end) ->
    q ++ pushed tr = popped tr ++ q_end.
Proof.
  induction sched as [|a sched IH]; intros q fed tr o rest q_end H.
  - simpl in H. inversion H; subst. simpl. now rewrite app_nil_r.
  - destruct a as [indata status|].
    + simpl in H.
      destruct (listen_loop w (q ++ [indata]) fed sched) as [[[tr1 o1] rest1] q1] eqn:E.
      inversion H; subst. apply IH in E.
      destruct (callback_events_pushed indata status) as (Hp & Hg & _).
      rewrite pushed_app, popped_app, Hp, Hg. simpl.
      rewrite <- E, <- app_assoc. reflexivity.
    + simpl in H. destruct q as [|data q'].
      * now apply IH in H.
      * destruct (AcceptWaveform w (fed ++ [data])).
        -- destruct (result_text (Result w (fed ++ [data]))) as [text|e].
           ++ destruct (PyStr.truthy text).
              ** inversion H; subst. simpl. now rewrite app_nil_r.
              ** destruct (listen_loop w q' (fed ++ [data]) sched)
                   as [[[tr1 o1] rest1] q1] eqn:E.
                 inversion H; subst. apply IH in E. simpl. now rewrite E.
           ++ inversion H; subst. simpl. now rewrite app_nil_r.
        -- destruct (listen_loop w q' (fed ++ [data]) sched)
             as [[[tr1 o1] rest1] q1] eqn:E.
           inversion H; subst. apply IH in E. simpl. now rewrite E.
Qed.

(** The capture loop neither speaks nor asks for a completion. *)
Lemma listen_loop_quiet (sched : list action) :
  forall (q fed : list frame) tr o rest q_end,
    listen_loop w q fed sched = (tr, o, rest, q_end) ->
    spoken tr = [] /\ requested tr = [].
Proof.
  induction sched as [|a sched IH]; intros q fed tr o rest q_end H.
  - simpl in H. inversion H; subst. split; reflexivity.
  - destruct a as [indata status|].
    + simpl in H.
      destruct (listen_loop w (q ++ [indata]) fed sched) as [[[tr1 o1] rest1] q1] eqn:E.
      inversion H; subst. apply IH in E. destruct E as [E1 E2].
      destruct (callback_events_pushed indata status) as (_ & _ & Hs & Hr).
      rewrite spoken_app, requested_app, Hs, Hr, E1, E2. split; reflexivity.
    + simpl in H. destruct q as [|data q'].
      * now apply IH in H.
      * destruct (AcceptWaveform w (fed ++ [data])).
        -- destruct (result_text (Result w (fed ++ [data]))) as [text|e].
           ++ destruct (PyStr.truthy text).
              ** inversion H; subst. split; reflexivity.
              ** destruct (listen_loop w q' (fed ++ [data]) sched)
                   as [[[tr1 o1] rest1] q1] eqn:E.
                 inversion H; subst. apply IH in E. exact E.
           ++ inversion H; subst. split; reflexivity.
        -- destruct (listen_loop w q' (fed ++ [data]) sched)
             as [[[tr1 o1] rest1] q1] eqn:E.
           inversion H; subst. apply IH in E. exact E.
Qed.

(** The loop returns only the lower-cased form of a stripped text that is not
    empty. *)
Lemma listen_loop_returns (sched : list action) :
  forall (q fed : list frame) tr text rest q_end,
    listen_loop w q fed sched = (tr, Ok text, rest, q_end) ->
    exists raw, PyStr.strip raw <> EmptyString /\ text = PyStr.lower (PyStr.strip raw).
Proof.
  induction sched as [|a sched IH]; intros q fed tr text rest q_end H.
  - simpl in H. inversion H.
  - destruct a as [indata status|].
    + simpl in H.
      destruct (listen_loop w (q ++ [indata]) fed sched) as [[[tr1 o1] rest1] q1] eqn:E.
      inversion H; subst. eapply IH; eassumption.
    + simpl in H. destruct q as [|data q'].
      * eapply IH; eassumption.
      * destruct (AcceptWaveform w (fed ++ [data])).
        -- destruct (result_text (Result w (fed ++ [data]))) as [t|e] eqn:Et.
           ++ destruct (PyStr.truthy t) eqn:Ett.
              ** inversion H; subst.
                 unfold result_text, and_then in Et.
                 destruct (PyVal.call_get (Result w (fed ++ [data])) "text" (JStr EmptyString))
                   as [v|e]; [|discriminate].
                 destruct v; try discriminate. simpl in Et. inversion Et; subst.
                 exists s. split; [|reflexivity].
                 intros Hs. rewrite Hs in Ett. discriminate.
              ** destruct (listen_loop w q' (fed ++ [data]) sched)
                   as [[[tr1 o1] rest1] q1] eqn:E.
                 inversion H; subst. eapply IH; eassumption.
           ++ inversion H.
        -- destruct (listen_loop w q' (fed ++ [data]) sched)
             as [[[tr1 o1] rest1] q1] eqn:E.
           inversion H; subst. eapply IH; eassumption.
Qed.

End ListenFacts.

(* ===================================================================== *)
(** ** The completion call *)
(* ===================================================================== *)

Section QueryFacts.

Variable w : World.

(** Subscripting and method lookup on decoded JSON raise nothing but
    [KeyError], [IndexError], [TypeError] and [AttributeError]. *)
Lemma getitem_str_exn (v : json) (k : string) (e : exc) :
  PyVal.getitem_str v k = Exn e -> is_Exception e = true.
Proof.
  destruct v; simpl; try (intros H; inversion H; reflexivity).
  destruct (PyVal.dict_lookup d k); intros H; inversion H; reflexivity.
Qed.

Lemma getitem_0_exn (v : json) (e : exc) :
  PyVal.getitem_0 v = Exn e -> is_Exception e = true.
Proof.
  destruct v as [| | |s|l|d]; simpl; try (intros H; inversion H; reflexivity).
  - destruct s; intros H; inversion H; reflexivity.
  - destruct l; intros H; inversion H; reflexivity.
Qed.

Lemma call_strip_exn (v : json) (e : exc) :
  PyVal.call_strip v = Exn e -> is_Exception e = true.
Proof. destruct v; simpl; intros H; inversion H; reflexivity. Qed.

Lemma response_content_exn (response : json) (e : exc) :
  response_content response = Exn e -> is_Exception e = true.
Proof.
  unfold response_content, and_then.
  destruct (PyVal.getitem_str response "choices") as [choices|e1] eqn:E1.
  2:{ intros H; inversion H; subst. eapply getitem_str_exn; eassumption. }
  destruct (PyVal.getitem_0 choices) as [choice|e2] eqn:E2.
  2:{ intros H; inversion H; subst. eapply getitem_0_exn; eassumption. }
  destruct (PyVal.getitem_str choice "message") as [message|e3] eqn:E3.
  2:{ intros H; inversion H; subst. eapply getitem_str_exn; eassumption. }
  destruct (PyVal.getitem_str message "content") as [content|e4] eqn:E4.
  2:{ intros H; inversion H; subst. eapply getitem_str_exn; eassumption. }
  apply call_strip_exn.
Qed.

(** Without the module, the fixed message and nothing else. *)
Lemma query_chatgpt_unavailable (prompt : string) (st : state) :
  OPENAI_AVAILABLE w = false ->
  query_chatgpt w prompt st = mkRun [] (Ok openai_unavailable_message) st.
Proof. intros H. unfold query_chatgpt. rewrite H. reflexivity. Qed.

(** With the module and without a key (unset, or set to the empty string),
    the fixed message and nothing else. *)
Lemma query_chatgpt_no_key (prompt : string) (st : state) :
  OPENAI_AVAILABLE w = true ->
  getenv w "OPENAI_API_KEY" = None \/ getenv w "OPENAI_API_KEY" = Some EmptyString ->
  query_chatgpt w prompt st = mkRun [] (Ok no_api_key_message) st.
Proof.
  intros H [Hk|Hk]; unfold query_chatgpt; rewrite H, Hk; reflexivity.
Qed.

(** With the module and a key, exactly one request is made, and it carries the
    prompt as the user message. *)
Lemma query_chatgpt_request (prompt : string) (st : state) (c : ascii) (k : string) :
  OPENAI_AVAILABLE w = true ->
  getenv w "OPENAI_API_KEY" = Some (String c k) ->
  trace (query_chatgpt w prompt st)
  = [SetApiKey (String c k); Request (create_request (String c k) prompt)].
Proof.
  intros H Hk. unfold query_chatgpt. rewrite H, Hk. simpl.
  unfold bind, attempt, emit, ChatCompletion_create_call. simpl.
  destruct (ChatCompletion_create w (requests st) (create_request (String c k) prompt))
    as [response|e]; simpl.
  - destruct (response_content response) as [content|e]; simpl; [reflexivity|].
    destruct (is_Exception e); reflexivity.
  - destruct (is_Exception e); reflexivity.
Qed.

(** [query_chatgpt] does not speak and does not touch the audio schedule. *)
Lemma query_chatgpt_quiet (prompt : string) (st : state) :
  spoken (trace (query_chatgpt w prompt st)) = []
  /\ pending (final (query_chatgpt w prompt st)) = pending st.
Proof.
  unfold query_chatgpt.
  destruct (OPENAI_AVAILABLE w); simpl; [|split; reflexivity].
  destruct (getenv w "OPENAI_API_KEY") as [[|c k]|]; try (split; reflexivity).
  unfold bind, attempt, emit, ChatCompletion_create_call. simpl.
  destruct (ChatCompletion_create w (requests st) (create_request (String c k) prompt))
    as [response|e]; simpl.
  - destruct (response_content response) as [content|e]; simpl; [split; reflexivity|].
    destruct (is_Exception e); split; reflexivity.
  - destruct (is_Exception e); split; reflexivity.
Qed.

(** When the completion call raises nothing outside [Exception],
    [query_chatgpt] returns a string. *)
Lemma query_chatgpt_returns (prompt : string) (st : state) :
  (forall n r e, ChatCompletion_create w n r = Exn e -> is_Exception e = true) ->
  exists s, res (query_chatgpt w prompt st) = Ok s.
Proof.
  intros Hnet. unfold query_chatgpt.
  destruct (OPENAI_AVAILABLE w); simpl; [|eexists; reflexivity].
  destruct (getenv w "OPENAI_API_KEY") as [[|c k]|]; try (eexists; reflexivity).
  unfold bind, attempt, emit, ChatCompletion_create_call. simpl.
  destruct (ChatCompletion_create w (requests st) (create_request (String c k) prompt))
    as [response|e] eqn:E; simpl.
  - destruct (response_content response) as [content|e] eqn:Ec; simpl;
      [eexists; reflexivity|].
    rewrite (response_content_exn _ _ Ec). eexists; reflexivity.
  - rewrite (Hnet _ _ _ E). eexists; reflexivity.
Qed.

End QueryFacts.

(* ===================================================================== *)
(** ** The loop of [main] *)
(* ===================================================================== *)

Section LoopFacts.

Variable w : World.

Lemma listen_and_transcribe_quiet (model : string) (samplerate : N) (st : state) :
  spoken (trace (listen_and_transcribe w model samplerate st)) = []
  /\ requested (trace (listen_and_transcribe w model samplerate st)) = [].
Proof.
  unfold listen_and_transcribe.
  destruct (listen_loop w [] [] (pending st)) as [[[tr o] rest] q_end] eqn:E.
  apply listen_loop_quiet in E. destruct E as [Es Er]. simpl.
  rewrite spoken_app, requested_app, Es, Er.
  destruct o; split; reflexivity.
Qed.

(** One round of the loop, once the capture has returned [text]: the prompt,
    the capture, what [dispatch] does with [text], and then the rounds that
    are left. *)
Lemma main_loop_round (model : string) (rounds : nat) (st : state) (text : string) :
  res (listen_and_transcribe w model 16000 st) = Ok text ->
  main_loop w model (S rounds) st =
    let l := listen_and_transcribe w model 16000 st in
    let d := dispatch w text (final l) in
    match res d with
    | Ok _ =>
        let r := main_loop w model rounds (final d) in
        mkRun (Print listening_prompt :: trace l ++ trace d ++ trace r) (res r) (final r)
    | Raise e => mkRun (Print listening_prompt :: trace l ++ trace d) (Raise e) (final d)
    | Running => mkRun (Print listening_prompt :: trace l ++ trace d) Running (final d)
    end.
Proof.
  intros H. cbn [main_loop]. unfold bind at 1 2 3. unfold emit. cbn [res final trace].
  rewrite H. cbn [res final trace].
  destruct (res (dispatch w text (final (listen_and_transcribe w model 16000 st))));
    cbn [res final trace app]; rewrite ?app_assoc; reflexivity.
Qed.

(** [speak] as a run. *)
Lemma speak_run (text : string) (st : state) :
  speak text st = mkRun [Say text; RunAndWait] (Ok tt) st.
Proof. reflexivity. Qed.

(** The three ways through [dispatch]. *)
Lemma dispatch_no_wake (text : string) (st : state) :
  PyStr.startswith wake text = false ->
  dispatch w text st = mkRun [] (Ok tt) st.
Proof.
  intros H. unfold dispatch. rewrite H.
  destruct (negb (PyStr.truthy text)); reflexivity.
Qed.

Lemma startswith_wake_truthy (text : string) :
  PyStr.startswith wake text = true -> PyStr.truthy text = true.
Proof. destruct text; [discriminate|reflexivity]. Qed.

Lemma dispatch_bare (text : string) (st : state) :
  PyStr.startswith wake text = true ->
  extract_query text = EmptyString ->
  dispatch w text st = mkRun [Say "Yes?"; RunAndWait] (Ok tt) st.
Proof.
  intros H Hq. unfold dispatch.
  rewrite (startswith_wake_truthy _ H), H, Hq. reflexivity.
Qed.

Lemma dispatch_query (text : string) (st : state) :
  PyStr.startswith wake text = true ->
  PyStr.truthy (extract_query text) = true ->
  dispatch w text st =
    (emit (Print ("User: " ++ extract_query text)) ;;
     speak "Thinking..." ;;
     answer <- query_chatgpt w (extract_query text) ;;
     emit (Print ("ELLA: " ++ answer)) ;;
     speak answer) st.
Proof.
  intros H Hq. unfold dispatch.
  rewrite (startswith_wake_truthy _ H), H, Hq. reflexivity.
Qed.

(** The events of the query path, whatever [query_chatgpt] does. *)
Lemma dispatch_query_trace (text : string) (st : state) :
  PyStr.startswith wake text = true ->
  PyStr.truthy (extract_query text) = true ->
  let q := query_chatgpt w (extract_query text) st in
  trace (dispatch w text st) =
    [Print ("User: " ++ extract_query text); Say "Thinking..."; RunAndWait]
    ++ trace q
    ++ match res q with
       | Ok answer => [Print ("ELLA: " ++ answer); Say answer; RunAndWait]
       | _ => []
       end.
Proof.
  intros H Hq. rewrite (dispatch_query _ _ H Hq).
  unfold bind, emit, speak. cbn [res final trace app]. unfold bind, emit. cbn [res final trace app].
  destruct (res (query_chatgpt w (extract_query text) st));
    cbn [res final trace app]; rewrite ?app_nil_r; reflexivity.
Qed.

End LoopFacts.

(* ===================================================================== *)
(** ** The properties of the specification *)
(* ===================================================================== *)

Section QueryExtraction.

(** The query the loop extracts from "ella, , tell me a joke" is not the
    clean query "tell me a joke". *)
Lemma joke_query_refuted :
  extract_query "ella, , tell me a joke" <> "tell me a joke".
Proof. vm_compute. discriminate. Qed.

(** C1, the code at the failing input: the expression of [main] trims
    before it removes the leading punctuation, so the blank after the
    punctuation stays.  For "ella, , tell me a joke" the query extracted is
    " , tell me a joke", not "tell me a joke", and that is the string handed
    to [query_chatgpt]; already "ella, tell me a joke" gives
    " tell me a joke". *)
Theorem joke_query :
  extract_query "ella, , tell me a joke" = " , tell me a joke"
  /\ extract_query "ella, , tell me a joke" <> "tell me a joke"
  /\ extract_query "ella, tell me a joke" = " tell me a joke"
  /\ forall (w : World) (st : state),
       dispatch w "ella, , tell me a joke" st =
         (emit (Print "User:  , tell me a joke") ;;
          speak "Thinking..." ;;
          answer <- query_chatgpt w " , tell me a joke" ;;
          emit (Print ("ELLA: " ++ answer)) ;;
          speak answer) st.
Proof.
  split; [reflexivity|]. split; [vm_compute; discriminate|].
  split; [reflexivity|]. intros w st. reflexivity.
Qed.

(** C6: for the utterance "ella what time is it" the extracted query is
    exactly "what time is it", [query_chatgpt] is called with that string,
    and the request it makes (when the module and a key are there) carries it
    as the user message. *)
Theorem time_query :
  extract_query "ella what time is it" = "what time is it"
  /\ (forall (w : World) (st : state),
        dispatch w "ella what time is it" st =
          (emit (Print "User: what time is it") ;;
           speak "Thinking..." ;;
           answer <- query_chatgpt w "what time is it" ;;
           emit (Print ("ELLA: " ++ answer)) ;;
           speak answer) st)
  /\ (forall (w : World) (st : state),
        exists after,
          trace (dispatch w "ella what time is it" st) =
            [Print "User: what time is it"; Say "Thinking..."; RunAndWait]
            ++ trace (query_chatgpt w "what time is it" st) ++ after).
Proof.
  split; [reflexivity|]. split; [intros w st; reflexivity|].
  intros w st. eexists.
  exact (dispatch_query_trace w "ella what time is it" st eq_refl eq_refl).
Qed.

(** C9: activation is a plain prefix test, without a word boundary: every
    utterance that begins with the four characters "ella", whatever follows,
    is an activation, and its query is taken from what follows those four
    characters; "ellas night out" gives the query "s night out". *)
Theorem prefix_activation (w : World) (rest : string) (st : state) :
  PyStr.startswith wake ("ella" ++ rest) = true
  /\ extract_query ("ella" ++ rest) = PyStr.lstrip ",.:;!" (PyStr.strip rest)
  /\ dispatch w ("ella" ++ rest) st =
       (if PyStr.truthy (extract_query ("ella" ++ rest)) then
          (emit (Print ("User: " ++ extract_query ("ella" ++ rest))) ;;
           speak "Thinking..." ;;
           answer <- query_chatgpt w (extract_query ("ella" ++ rest)) ;;
           emit (Print ("ELLA: " ++ answer)) ;;
           speak answer) st
        else speak "Yes?" st)
  /\ extract_query "ellas night out" = "s night out"
  /\ spoken (trace (dispatch w "ellas night out" st)) <> [].
Proof.
  assert (Hs : PyStr.startswith wake ("ella" ++ rest) = true).
  { exact (PyStrFacts.prefix_app wake rest). }
  split; [exact Hs|]. split; [reflexivity|]. split.
  - destruct (PyStr.truthy (extract_query ("ella" ++ rest))) eqn:E.
    + now apply dispatch_query.
    + apply dispatch_bare; [exact Hs|].
      destruct (extract_query ("ella" ++ rest)); [reflexivity|discriminate].
  - split; [reflexivity|].
    rewrite (dispatch_query_trace w "ellas night out" st eq_refl eq_refl).
    simpl. discriminate.
Qed.

End QueryExtraction.

Section Startup.

Import Samples.

(** C2, as stated, does not hold: with the model directory missing, [main]
    returns and the process ends with status 0, not with a non-zero one. *)
Lemma missing_model_exit_status_refuted :
  isdir no_model_world (model_dir no_model_world) = false
  /\ exit_status (res (main no_model_world 1 (start []))) = Some 0%N
  /\ ~ (exists n, exit_status (res (main no_model_world 1 (start []))) = Some n
                  /\ n <> 0%N).
Proof.
  split; [reflexivity|]. split; [reflexivity|].
  intros [n [H Hn]]. vm_compute in H. inversion H. subst. now apply Hn.
Qed.

(** C2, amended: if the model directory does not exist at startup, the
    process prints a diagnostic that names the missing directory (on standard
    error) and a hint (on standard output), and [main] returns, so that the
    process ends with status 0, without entering the capture loop: nothing is
    listened to, no recognizer is built, nothing is spoken. *)
Theorem missing_model (w : World) (rounds : nat) (st : state) :
  isdir w (model_dir w) = false ->
  main w rounds st =
    mkRun [PrintErr (model_not_found_message (model_dir w)); Print download_hint]
          (Ok tt) st
  /\ PyStr.contains (PyRepr.repr (model_dir w))
                    (model_not_found_message (model_dir w)) = true
  /\ exit_status (res (main w rounds st)) = Some 0%N
  /\ recognizers (trace (main w rounds st)) = 0
  /\ streams_opened (trace (main w rounds st)) = 0
  /\ popped (trace (main w rounds st)) = []
  /\ spoken (trace (main w rounds st)) = [].
Proof.
  intros H.
  assert (E : main w rounds st =
              mkRun [PrintErr (model_not_found_message (model_dir w)); Print download_hint]
                    (Ok tt) st).
  { unfold main, bind, attempt, load_vosk_model. rewrite H. reflexivity. }
  split; [exact E|]. split.
  - unfold model_not_found_message. apply PyStrFacts.contains_app.
  - rewrite E. repeat split; reflexivity.
Qed.

Lemma missing_model_witness :
  isdir no_model_world (model_dir no_model_world) = false
  /\ main no_model_world 2 (start [heard "ella"; Consumer]) =
       mkRun [PrintErr (model_not_found_message (model_dir no_model_world));
              Print download_hint]
             (Ok tt) (start [heard "ella"; Consumer]).
Proof.
  split; [reflexivity|].
  exact (proj1 (missing_model no_model_world 2 (start [heard "ella"; Consumer]) eq_refl)).
Defined.

End Startup.

Section Completion.

Import Samples.

(** C3, as stated, does not hold: with [OPENAI_API_KEY] unset and the openai
    module absent, the string returned does not name the variable. *)
Lemma unset_key_message_refuted :
  getenv offline_world "OPENAI_API_KEY" = None
  /\ res (query_chatgpt offline_world "what time is it" (start []))
     = Ok openai_unavailable_message
  /\ PyStr.contains "OPENAI_API_KEY" openai_unavailable_message = false.
Proof. repeat split; reflexivity. Qed.

(** C3, amended: for every query string and every environment (openai
    module absent, [OPENAI_API_KEY] unset, network error, malformed upstream
    payload: the completion call may return any payload and raise any
    exception derived from [Exception]), [query_chatgpt] returns a string and
    propagates no exception.  When the openai module is absent it returns the
    fixed "not available" string and makes no request; when the module is
    there and [OPENAI_API_KEY] is unset or empty it returns the fixed string
    that names that variable, and makes no request. *)
Theorem query_chatgpt_total (w : World) (prompt : string) (st : state) :
  (forall n r e, ChatCompletion_create w n r = Exn e -> is_Exception e = true) ->
  (exists s, res (query_chatgpt w prompt st) = Ok s)
  /\ (OPENAI_AVAILABLE w = false ->
      query_chatgpt w prompt st = mkRun [] (Ok openai_unavailable_message) st)
  /\ (OPENAI_AVAILABLE w = true ->
      getenv w "OPENAI_API_KEY" = None \/ getenv w "OPENAI_API_KEY" = Some EmptyString ->
      query_chatgpt w prompt st = mkRun [] (Ok no_api_key_message) st
      /\ requested (trace (query_chatgpt w prompt st)) = []
      /\ PyStr.contains "OPENAI_API_KEY" no_api_key_message = true).
Proof.
  intros Hnet. split; [now apply query_chatgpt_returns|]. split.
  - apply query_chatgpt_unavailable.
  - intros Ha Hk. rewrite (query_chatgpt_no_key w prompt st Ha Hk).
    repeat split; reflexivity.
Qed.

Lemma query_chatgpt_total_witness :
  ((forall n r e,
       ChatCompletion_create unreachable_world n r = Exn e -> is_Exception e = true)
   /\ exists s, res (query_chatgpt unreachable_world "what time is it" (start [])) = Ok s)
  /\ OPENAI_AVAILABLE keyless_world = true
  /\ getenv keyless_world "OPENAI_API_KEY" = None
  /\ query_chatgpt keyless_world "what time is it" (start [])
     = mkRun [] (Ok no_api_key_message) (start []).
Proof.
  assert (Hnet : forall n r e,
             ChatCompletion_create unreachable_world n r = Exn e -> is_Exception e = true).
  { intros n r e H. inversion H. reflexivity. }
  assert (Hnet' : forall n r e,
             ChatCompletion_create keyless_world n r = Exn e -> is_Exception e = true).
  { intros n r e H. discriminate H. }
  split.
  - split; [exact Hnet|].
    exact (proj1 (query_chatgpt_total unreachable_world "what time is it" (start []) Hnet)).
  - split; [reflexivity|]. split; [reflexivity|].
    exact (proj1 (proj2 (proj2 (query_chatgpt_total keyless_world "what time is it"
                                   (start []) Hnet'))
                        eq_refl (or_introl eq_refl))).
Defined.

End Completion.

Section Capture.

Import Samples.

(** C7: every string returned by [listen_and_transcribe] is non-empty, has
    no whitespace at its start or at its end, and is lower-cased; and a final
    result whose stripped text is empty makes the loop take the frame and go
    on listening instead of returning. *)
Theorem listen_and_transcribe_text (w : World) (model : string) (samplerate : N) :
  (forall (st : state) (text : string),
      res (listen_and_transcribe w model samplerate st) = Ok text ->
      text <> EmptyString
      /\ PyStr.strip text = text
      /\ (exists a b, PyStr.first_char text = Some a /\ PyStr.last_char text = Some b
                      /\ PyStr.isspace a = false /\ PyStr.isspace b = false)
      /\ PyStr.lower text = text)
  /\ (forall (q fed : list frame) (data : frame) (sched : list action),
         AcceptWaveform w (fed ++ [data]) = true ->
         result_text (Result w (fed ++ [data])) = Val EmptyString ->
         listen_loop w (data :: q) fed (Consumer :: sched) =
           let '(tr, o, rest, q_end) := listen_loop w q (fed ++ [data]) sched in
           (Get data :: tr, o, rest, q_end)).
Proof.
  split.
  - intros st text H. unfold listen_and_transcribe in H.
    destruct (listen_loop w [] [] (pending st)) as [[[tr o] rest] q_end] eqn:E.
    simpl in H. subst o.
    apply listen_loop_returns in E. destruct E as (raw & Hne & ->).
    destruct (PyStrFacts.strip_edges raw Hne) as (a & b & Ha & Hb & Hsa & Hsb).
    assert (Hfa : PyStr.first_char (PyStr.lower (PyStr.strip raw)) = Some (PyStr.lower_char a)).
    { now rewrite PyStrFacts.first_char_lower, Ha. }
    assert (Hfb : PyStr.last_char (PyStr.lower (PyStr.strip raw)) = Some (PyStr.lower_char b)).
    { now rewrite PyStrFacts.last_char_lower, Hb. }
    assert (Hla : PyStr.isspace (PyStr.lower_char a) = false).
    { now rewrite PyStrFacts.isspace_lower_char. }
    assert (Hlb : PyStr.isspace (PyStr.lower_char b) = false).
    { now rewrite PyStrFacts.isspace_lower_char. }
    split; [|split; [|split]].
    + intros Hl. apply Hne. exact (proj1 (PyStrFacts.lower_empty_iff _) Hl).
    + exact (PyStrFacts.strip_fixed _ _ _ Hfa Hfb Hla Hlb).
    + exists (PyStr.lower_char a), (PyStr.lower_char b). auto.
    + apply PyStrFacts.lower_idem.
  - intros q fed data sched Ha Ht. cbn [listen_loop]. rewrite Ha, Ht. reflexivity.
Qed.

Lemma listen_and_transcribe_text_witness :
  (res (listen_and_transcribe pi_world "vosk-en" 16000
          (start [heard "  "; heard " Ella What Time "; Consumer; Consumer]))
   = Ok "ella what time"
   /\ PyStr.strip "ella what time" = "ella what time"
   /\ PyStr.lower "ella what time" = "ella what time")
  /\ (AcceptWaveform pi_world ([] ++ [list_byte_of_string "  "]) = true
      /\ result_text (Result pi_world ([] ++ [list_byte_of_string "  "])) = Val EmptyString
      /\ listen_loop pi_world [list_byte_of_string "  "; list_byte_of_string "ella"] []
                     [Consumer; Consumer]
         = ([Get (list_byte_of_string "  "); Get (list_byte_of_string "ella")],
            Ok "ella", [], [])).
Proof.
  split.
  - split; [reflexivity|].
    pose proof (proj1 (listen_and_transcribe_text pi_world "vosk-en" 16000)
                  (start [heard "  "; heard " Ella What Time "; Consumer; Consumer])
                  "ella what time" eq_refl) as H.
    split; [exact (proj1 (proj2 H))|exact (proj2 (proj2 (proj2 H)))].
  - split; [reflexivity|]. split; [reflexivity|].
    exact (proj2 (listen_and_transcribe_text pi_world "vosk-en" 16000)
             [list_byte_of_string "ella"] [] (list_byte_of_string "  ") [Consumer]
             eq_refl eq_refl).
Defined.

(** C8, as stated, does not hold: the driver queues two blocks, the loop
    takes the first, it ends an utterance, and [listen_and_transcribe]
    returns; the second block was pushed and is never popped. *)
Lemma frame_queue_pending_refuted :
  res (listen_and_transcribe pi_world "vosk-en" 16000
         (start [heard "ella"; heard "stop"; Consumer]))
  = Ok "ella"
  /\ pushed (trace (listen_and_transcribe pi_world "vosk-en" 16000
                      (start [heard "ella"; heard "stop"; Consumer])))
     = [list_byte_of_string "ella"; list_byte_of_string "stop"]
  /\ popped (trace (listen_and_transcribe pi_world "vosk-en" 16000
                      (start [heard "ella"; heard "stop"; Consumer])))
     = [list_byte_of_string "ella"]
  /\ popped (trace (listen_and_transcribe pi_world "vosk-en" 16000
                      (start [heard "ella"; heard "stop"; Consumer])))
     <> pushed (trace (listen_and_transcribe pi_world "vosk-en" 16000
                         (start [heard "ella"; heard "stop"; Consumer]))).
Proof.
  split; [reflexivity|]. split; [reflexivity|]. split; [reflexivity|].
  vm_compute. discriminate.
Qed.

(** C8, amended: under any interleaving of the audio callback and the
    consumer, the sequence of frames popped from the queue is a prefix of the
    sequence pushed (same order, nothing skipped, nothing twice), and the
    frames pushed after it are exactly what the queue holds, in order, when
    the observation ends; those are not popped once [listen_and_transcribe]
    has returned. *)
Theorem frame_queue_fifo (w : World) (model : string) (samplerate : N) (st : state) :
  let '(_, _, _, q_end) := listen_loop w [] [] (pending st) in
  pushed (trace (listen_and_transcribe w model samplerate st))
  = popped (trace (listen_and_transcribe w model samplerate st)) ++ q_end.
Proof.
  unfold listen_and_transcribe.
  destruct (listen_loop w [] [] (pending st)) as [[[tr o] rest] q_end] eqn:E.
  apply listen_loop_fifo in E. simpl in E. cbn [trace].
  rewrite !pushed_app, !popped_app.
  replace (pushed (stream_exit o)) with (@nil frame) by (destruct o; reflexivity).
  replace (popped (stream_exit o)) with (@nil frame) by (destruct o; reflexivity).
  simpl. rewrite !app_nil_r. exact E.
Qed.

End Capture.

Section Dispatch.

Import Samples.

(** C4: for every utterance the capture returns that does not start with the
    wake phrase "ella", the round produces no command: [dispatch] does nothing
    (neither [speak] nor [query_chatgpt] is called, the round says nothing and
    requests nothing), and the loop goes back to listening with the rounds
    that are left. *)
Theorem no_wake_no_action (w : World) (model : string) (rounds : nat)
        (st : state) (text : string) :
  res (listen_and_transcribe w model 16000 st) = Ok text ->
  PyStr.startswith wake text = false ->
  dispatch w text (final (listen_and_transcribe w model 16000 st))
  = mkRun [] (Ok tt) (final (listen_and_transcribe w model 16000 st))
  /\ main_loop w model (S rounds) st
     = mkRun (Print listening_prompt
                :: trace (listen_and_transcribe w model 16000 st)
                ++ trace (main_loop w model rounds
                            (final (listen_and_transcribe w model 16000 st))))
             (res (main_loop w model rounds
                     (final (listen_and_transcribe w model 16000 st))))
             (final (main_loop w model rounds
                       (final (listen_and_transcribe w model 16000 st))))
  /\ spoken (Print listening_prompt :: trace (listen_and_transcribe w model 16000 st)) = []
  /\ requested (Print listening_prompt :: trace (listen_and_transcribe w model 16000 st)) = [].
Proof.
  intros Hl Hw.
  pose proof (dispatch_no_wake w text (final (listen_and_transcribe w model 16000 st)) Hw)
    as Hd.
  split; [exact Hd|]. split.
  - rewrite (main_loop_round w model rounds st text Hl). cbv zeta.
    rewrite Hd. reflexivity.
  - exact (listen_and_transcribe_quiet w model 16000 st).
Qed.

Lemma no_wake_no_action_witness :
  res (listen_and_transcribe pi_world "vosk-en" 16000 (start [heard "Good morning"; Consumer]))
  = Ok "good morning"
  /\ PyStr.startswith wake "good morning" = false
  /\ main_loop pi_world "vosk-en" 1 (start [heard "Good morning"; Consumer])
     = mkRun [Print listening_prompt; NewRecognizer 16000; StreamOpen;
              Put (list_byte_of_string "Good morning");
              Get (list_byte_of_string "Good morning"); StreamClose]
             Running (start []).
Proof.
  split; [reflexivity|]. split; [reflexivity|].
  exact (proj1 (proj2 (no_wake_no_action pi_world "vosk-en" 0
                         (start [heard "Good morning"; Consumer]) "good morning"
                         eq_refl eq_refl))).
Defined.

(** C5: for every utterance that starts with the wake phrase and whose query
    is empty after the prefix strip, the trim and the removal of leading
    punctuation, the exact wake phrase "ella" among them, the round speaks the
    acknowledgment "Yes?", calls [query_chatgpt] not at all (no request, no
    other speech), and the loop goes on. *)
Theorem bare_activation (w : World) (model : string) (rounds : nat)
        (st : state) (text : string) :
  PyStr.startswith wake text = true ->
  extract_query text = EmptyString ->
  (forall st', dispatch w text st' = speak "Yes?" st')
  /\ (forall st', trace (dispatch w text st') = [Say "Yes?"; RunAndWait]
                  /\ res (dispatch w text st') = Ok tt
                  /\ final (dispatch w text st') = st')
  /\ (res (listen_and_transcribe w model 16000 st) = Ok text ->
      main_loop w model (S rounds) st
      = mkRun (Print listening_prompt
                 :: trace (listen_and_transcribe w model 16000 st)
                 ++ [Say "Yes?"; RunAndWait]
                 ++ trace (main_loop w model rounds
                             (final (listen_and_transcribe w model 16000 st))))
              (res (main_loop w model rounds
                      (final (listen_and_transcribe w model 16000 st))))
              (final (main_loop w model rounds
                        (final (listen_and_transcribe w model 16000 st)))))
  /\ PyStr.startswith wake "ella" = true
  /\ extract_query "ella" = EmptyString.
Proof.
  intros Hw Hq.
  assert (Hd : forall st', dispatch w text st' = mkRun [Say "Yes?"; RunAndWait] (Ok tt) st').
  { intros st'. now apply dispatch_bare. }
  split; [intros st'; rewrite Hd; reflexivity|].
  split; [intros st'; rewrite Hd; repeat split; reflexivity|].
  split; [|split; reflexivity].
  intros Hl. rewrite (main_loop_round w model rounds st text Hl). cbv zeta.
  rewrite Hd. reflexivity.
Qed.

Lemma bare_activation_witness :
  PyStr.startswith wake "ella,." = true
  /\ extract_query "ella,." = EmptyString
  /\ dispatch pi_world "ella,." (start []) = mkRun [Say "Yes?"; RunAndWait] (Ok tt) (start []).
Proof.
  split; [reflexivity|]. split; [reflexivity|].
  exact (proj1 (bare_activation pi_world "vosk-en" 0 (start []) "ella,." eq_refl eq_refl)
           (start [])).
Defined.

(** C10: for every activation with a non-empty query, [speak] is called with
    the fixed text "Thinking..." before [query_chatgpt] is called, and when
    [query_chatgpt] returns its answer the round has exactly two speech
    invocations: the filler, then the answer. *)
Theorem thinking_then_answer (w : World) (text : string) (st : state) :
  PyStr.startswith wake text = true ->
  PyStr.truthy (extract_query text) = true ->
  (exists after,
      trace (dispatch w text st)
      = [Print ("User: " ++ extract_query text); Say "Thinking..."; RunAndWait]
        ++ trace (query_chatgpt w (extract_query text) st) ++ after)
  /\ (forall answer,
         res (query_chatgpt w (extract_query text) st) = Ok answer ->
         trace (dispatch w text st)
         = [Print ("User: " ++ extract_query text); Say "Thinking..."; RunAndWait]
           ++ trace (query_chatgpt w (extract_query text) st)
           ++ [Print ("ELLA: " ++ answer); Say answer; RunAndWait]
         /\ spoken (trace (dispatch w text st)) = ["Thinking..."; answer]).
Proof.
  intros Hw Hq.
  pose proof (dispatch_query_trace w text st Hw Hq) as Ht. cbv zeta in Ht.
  split; [eexists; exact Ht|].
  intros answer Ha. rewrite Ha in Ht. split; [exact Ht|].
  rewrite Ht. cbn [app spoken]. rewrite spoken_app.
  rewrite (proj1 (query_chatgpt_quiet w (extract_query text) st)). reflexivity.
Qed.

Lemma thinking_then_answer_witness :
  PyStr.startswith wake "ella what time is it" = true
  /\ PyStr.truthy (extract_query "ella what time is it") = true
  /\ res (query_chatgpt pi_world (extract_query "ella what time is it") (start []))
     = Ok "It is noon."
  /\ spoken (trace (dispatch pi_world "ella what time is it" (start [])))
     = ["Thinking..."; "It is noon."].
Proof.
  split; [reflexivity|]. split; [reflexivity|]. split; [reflexivity|].
  exact (proj2 (proj2 (thinking_then_answer pi_world "ella what time is it" (start [])
                         eq_refl eq_refl)
                      "It is noon." eq_refl)).
Defined.

End Dispatch.

(* ===================================================================== *)
(** ** Further properties of the capture loop *)
(* ===================================================================== *)

Section CaptureMore.

Import Samples.

Variable w : World.

Lemma printed_err_app (a b : list event) :
  printed_err (a ++ b) = printed_err a ++ printed_err b.
Proof.
  induction a as [|ev a IH]; [reflexivity|].
  destruct ev; simpl; rewrite IH; reflexivity.
Qed.

Lemma callback_frames_app (a b : list action) :
  callback_frames (a ++ b) = callback_frames a ++ callback_frames b.
Proof.
  induction a as [|[indata status|] a IH]; simpl; rewrite ?IH; reflexivity.
Qed.

Lemma callback_events_printed (indata : frame) (status : option string) :
  printed_err (callback_events indata status)
  = status_lines [Callback indata status].
Proof. destruct status; reflexivity. Qed.

(** The part of the schedule the loop went through: its callbacks are what
    was pushed and what was reported. *)
Lemma listen_loop_consumed (sched : list action) :
  forall (q fed : list frame) tr o rest q_end,
    listen_loop w q fed sched = (tr, o, rest, q_end) ->
    exists consumed,
      sched = consumed ++ rest
      /\ pushed tr = callback_frames consumed
      /\ printed_err tr = status_lines consumed.
Proof.
  induction sched as [|a sched IH]; intros q fed tr o rest q_end H.
  - simpl in H. inversion H; subst. exists []. repeat split.
  - destruct a as [indata status|].
    + simpl in H.
      destruct (listen_loop w (q ++ [indata]) fed sched) as [[[tr1 o1] rest1] q1] eqn:E.
      inversion H; subst. apply IH in E. destruct E as (consumed & Hs & Hp & He).
      exists (Callback indata status :: consumed). split; [simpl; now rewrite <- Hs|].
      rewrite pushed_app, printed_err_app, Hp, He, callback_events_printed.
      destruct (callback_events_pushed indata status) as (Hcp & _). rewrite Hcp.
      split; [reflexivity|]. destruct status; reflexivity.
    + simpl in H. destruct q as [|data q'].
      * apply IH in H. destruct H as (consumed & Hs & Hp & He).
        exists (Consumer :: consumed). split; [simpl; now rewrite <- Hs|]. split; assumption.
      * assert (Hrec : forall tr1 o1 rest1 q1,
                   listen_loop w q' (fed ++ [data]) sched = (tr1, o1, rest1, q1) ->
                   exists consumed,
                     Consumer :: sched = consumed ++ rest1
                     /\ pushed (Get data :: tr1) = callback_frames consumed
                     /\ printed_err (Get data :: tr1) = status_lines consumed).
        { intros tr1 o1 rest1 q1 E. apply IH in E. destruct E as (consumed & Hs & Hp & He).
          exists (Consumer :: consumed). split; [simpl; now rewrite <- Hs|]. split; assumption. }
        destruct (AcceptWaveform w (fed ++ [data])).
        -- destruct (result_text (Result w (fed ++ [data]))) as [text|e].
           ++ destruct (PyStr.truthy text).
              ** inversion H; subst. exists [Consumer]. repeat split.
              ** destruct (listen_loop w q' (fed ++ [data]) sched)
                   as [[[tr1 o1] rest1] q1] eqn:E.
                 inversion H; subst. eapply Hrec; reflexivity.
           ++ inversion H; subst. exists [Consumer]. repeat split.
        -- destruct (listen_loop w q' (fed ++ [data]) sched)
             as [[[tr1 o1] rest1] q1] eqn:E.
           inversion H; subst. eapply Hrec; reflexivity.
Qed.

(** X1: every callback that runs while the stream is open queues its block,
    whatever its status, and prints one diagnostic line when the status is
    true: the blocks pushed and the lines on standard error are those of the
    callbacks in the part of the schedule that the call went through. *)
Theorem callbacks_all_queued (model : string) (samplerate : N) (st : state) :
  exists consumed,
    pending st = consumed ++ pending (final (listen_and_transcribe w model samplerate st))
    /\ pushed (trace (listen_and_transcribe w model samplerate st))
       = callback_frames consumed
    /\ printed_err (trace (listen_and_transcribe w model samplerate st))
       = status_lines consumed.
Proof.
  unfold listen_and_transcribe.
  destruct (listen_loop w [] [] (pending st)) as [[[tr o] rest] q_end] eqn:E.
  apply listen_loop_consumed in E. destruct E as (consumed & Hs & Hp & He).
  exists consumed. cbn [trace final pending]. split; [exact Hs|].
  rewrite !pushed_app, !printed_err_app, Hp, He.
  destruct o; simpl; rewrite ?app_nil_r; split; reflexivity.
Qed.

(** The recognizer is fed the frames popped, in order, and a text is returned
    only when it accepted the last of them as the end of an utterance. *)
Lemma listen_loop_result (sched : list action) :
  forall (q fed : list frame) tr text rest q_end,
    listen_loop w q fed sched = (tr, Ok text, rest, q_end) ->
    popped tr <> []
    /\ AcceptWaveform w (fed ++ popped tr) = true
    /\ exists t, result_text (Result w (fed ++ popped tr)) = Val t
                 /\ t <> EmptyString /\ text = PyStr.lower t.
Proof.
  induction sched as [|a sched IH]; intros q fed tr text rest q_end H.
  - simpl in H. inversion H.
  - destruct a as [indata status|].
    + simpl in H.
      destruct (listen_loop w (q ++ [indata]) fed sched) as [[[tr1 o1] rest1] q1] eqn:E.
      inversion H; subst. apply IH in E.
      destruct (callback_events_pushed indata status) as (_ & Hg & _).
      rewrite popped_app, Hg. exact E.
    + simpl in H. destruct q as [|data q'].
      * eapply IH; eassumption.
      * assert (Hrec : forall tr1 rest1 q1,
                   listen_loop w q' (fed ++ [data]) sched = (tr1, Ok text, rest1, q1) ->
                   popped (Get data :: tr1) <> []
                   /\ AcceptWaveform w (fed ++ popped (Get data :: tr1)) = true
                   /\ exists t, result_text (Result w (fed ++ popped (Get data :: tr1))) = Val t
                                /\ t <> EmptyString /\ text = PyStr.lower t).
        { intros tr1 rest1 q1 E. apply IH in E. destruct E as (_ & Ha & Ht).
          cbn [popped]. split; [discriminate|].
          replace (fed ++ data :: popped tr1) with ((fed ++ [data]) ++ popped tr1)
            by (rewrite <- app_assoc; reflexivity).
          split; assumption. }
        destruct (AcceptWaveform w (fed ++ [data])) eqn:Ea.
        -- destruct (result_text (Result w (fed ++ [data]))) as [t|e] eqn:Et.
           ++ destruct (PyStr.truthy t) eqn:Ett.
              ** inversion H; subst. cbn [popped]. split; [discriminate|].
                 split; [exact Ea|]. exists t. split; [exact Et|]. split; [|reflexivity].
                 intros ->. discriminate.
              ** destruct (listen_loop w q' (fed ++ [data]) sched)
                   as [[[tr1 o1] rest1] q1] eqn:E.
                 inversion H; subst. eapply Hrec; reflexivity.
           ++ inversion H.
        -- destruct (listen_loop w q' (fed ++ [data]) sched)
             as [[[tr1 o1] rest1] q1] eqn:E.
           inversion H; subst. eapply Hrec; reflexivity.
Qed.

(** X2: a text that [listen_and_transcribe] returns is the lower-cased,
    stripped text of the recognizer's result after exactly the frames the
    call popped, fed in the order popped; the recognizer accepted the last of
    them as the end of an utterance, and at least one frame was popped. *)
Theorem returned_text_source (model : string) (samplerate : N) (st : state) (text : string) :
  res (listen_and_transcribe w model samplerate st) = Ok text ->
  popped (trace (listen_and_transcribe w model samplerate st)) <> []
  /\ AcceptWaveform w (popped (trace (listen_and_transcribe w model samplerate st))) = true
  /\ exists t,
       result_text (Result w (popped (trace (listen_and_transcribe w model samplerate st))))
       = Val t
       /\ t <> EmptyString /\ text = PyStr.lower t.
Proof.
  unfold listen_and_transcribe.
  destruct (listen_loop w [] [] (pending st)) as [[[tr o] rest] q_end] eqn:E.
  cbn [res trace]. intros ->. apply listen_loop_result in E. simpl in E.
  rewrite !popped_app. cbn [popped stream_exit]. rewrite app_nil_r. exact E.
Qed.

End CaptureMore.

Lemma returned_text_source_witness :
  res (listen_and_transcribe Samples.pi_world "vosk-en" 16000
         (Samples.start [Samples.heard "  "; Samples.heard "Ella Hello"; Consumer;
                         Samples.heard "more"; Consumer]))
  = Ok "ella hello"
  /\ AcceptWaveform Samples.pi_world
       (popped (trace (listen_and_transcribe Samples.pi_world "vosk-en" 16000
                         (Samples.start [Samples.heard "  "; Samples.heard "Ella Hello";
                                         Consumer; Samples.heard "more"; Consumer]))))
     = true.
Proof.
  split; [reflexivity|].
  exact (proj1 (proj2 (returned_text_source Samples.pi_world "vosk-en" 16000
                         (Samples.start [Samples.heard "  "; Samples.heard "Ella Hello";
                                         Consumer; Samples.heard "more"; Consumer])
                         "ella hello" eq_refl))).
Defined.

Section CaptureProgress.

Variable w : World.

Lemma listen_loop_silence (sched : list action) :
  (forall fed, AcceptWaveform w fed = false
               \/ result_text (Result w fed) = Val EmptyString) ->
  forall (q fed : list frame) tr o rest q_end,
    listen_loop w q fed sched = (tr, o, rest, q_end) ->
    o = Running /\ rest = [] /\ callback_frames sched = pushed tr.
Proof.
  intros Hs.
  induction sched as [|a sched IH]; intros q fed tr o rest q_end H.
  - simpl in H. inversion H; subst. repeat split.
  - destruct a as [indata status|].
    + simpl in H.
      destruct (listen_loop w (q ++ [indata]) fed sched) as [[[tr1 o1] rest1] q1] eqn:E.
      inversion H; subst. apply IH in E. destruct E as (-> & -> & Hp).
      destruct (callback_events_pushed indata status) as (Hcp & _).
      rewrite pushed_app, Hcp, <- Hp. repeat split.
    + simpl in H. destruct q as [|data q'].
      * now apply IH in H.
      * destruct (Hs (fed ++ [data])) as [Ha|Ht].
        -- rewrite Ha in H.
           destruct (listen_loop w q' (fed ++ [data]) sched)
             as [[[tr1 o1] rest1] q1] eqn:E.
           inversion H; subst. now apply IH in E.
        -- rewrite Ht in H. cbn [PyStr.truthy] in H.
           destruct (AcceptWaveform w (fed ++ [data]));
             destruct (listen_loop w q' (fed ++ [data]) sched)
               as [[[tr1 o1] rest1] q1] eqn:E;
             inversion H; subst; now apply IH in E.
Qed.

(** X3: as long as the recognizer ends no utterance, or ends utterances
    whose stripped text is empty, [listen_and_transcribe] neither returns nor
    raises, however much audio arrives: it goes through the whole schedule,
    queues every block and is still listening. *)
Theorem silence_keeps_listening (model : string) (samplerate : N) (st : state) :
  (forall fed, AcceptWaveform w fed = false
               \/ result_text (Result w fed) = Val EmptyString) ->
  res (listen_and_transcribe w model samplerate st) = Running
  /\ pending (final (listen_and_transcribe w model samplerate st)) = []
  /\ pushed (trace (listen_and_transcribe w model samplerate st))
     = callback_frames (pending st).
Proof.
  intros Hs. unfold listen_and_transcribe.
  destruct (listen_loop w [] [] (pending st)) as [[[tr o] rest] q_end] eqn:E.
  pose proof (listen_loop_silence _ Hs _ _ _ _ _ _ E) as (-> & -> & Hp).
  cbn [res final trace pending stream_exit]. rewrite app_nil_r.
  split; [reflexivity|]. split; [reflexivity|]. simpl. now rewrite Hp.
Qed.

(** Each call that returns or raises went through at least one callback and
    one round of the consumer. *)
Lemma listen_loop_progress (sched : list action) :
  forall (q fed : list frame) tr o rest q_end,
    listen_loop w q fed sched = (tr, o, rest, q_end) ->
    o <> Running ->
    length rest + steps_needed q <= length sched.
Proof.
  induction sched as [|a sched IH]; intros q fed tr o rest q_end H Ho.
  - simpl in H. inversion H; subst. congruence.
  - destruct a as [indata status|].
    + simpl in H.
      destruct (listen_loop w (q ++ [indata]) fed sched) as [[[tr1 o1] rest1] q1] eqn:E.
      inversion H; subst. apply IH in E; [|exact Ho].
      assert (steps_needed (q ++ [indata]) = 1) as Hn by (destruct q; reflexivity).
      rewrite Hn in E. destruct q; simpl; lia.
    + simpl in H. destruct q as [|data q'].
      * apply IH in H; [|exact Ho]. simpl in *. lia.
      * assert (Hrec : forall tr1 rest1 q1,
                   listen_loop w q' (fed ++ [data]) sched = (tr1, o, rest1, q1) ->
                   length rest1 + 1 <= length (Consumer :: sched)).
        { intros tr1 rest1 q1 E. apply IH in E; [|exact Ho].
          destruct q'; simpl in *; lia. }
        destruct (AcceptWaveform w (fed ++ [data])).
        -- destruct (result_text (Result w (fed ++ [data]))) as [text|e].
           ++ destruct (PyStr.truthy text).
              ** inversion H; subst. simpl. lia.
              ** destruct (listen_loop w q' (fed ++ [data]) sched)
                   as [[[tr1 o1] rest1] q1] eqn:E.
                 inversion H; subst. eapply Hrec; reflexivity.
           ++ inversion H; subst. simpl. lia.
        -- destruct (listen_loop w q' (fed ++ [data]) sched)
             as [[[tr1 o1] rest1] q1] eqn:E.
           inversion H; subst. eapply Hrec; reflexivity.
Qed.

End CaptureProgress.

Lemma silence_keeps_listening_witness :
  (forall fed, AcceptWaveform Samples.deaf_world fed = false
               \/ result_text (Result Samples.deaf_world fed) = Val EmptyString)
  /\ res (listen_and_transcribe Samples.deaf_world "vosk-en" 16000
            (Samples.start [Samples.heard "ella"; Consumer; Samples.heard "ella"; Consumer]))
     = Running.
Proof.
  assert (Hs : forall fed, AcceptWaveform Samples.deaf_world fed = false
                           \/ result_text (Result Samples.deaf_world fed) = Val EmptyString).
  { intros fed. left. reflexivity. }
  split; [exact Hs|].
  exact (proj1 (silence_keeps_listening Samples.deaf_world "vosk-en" 16000
                  (Samples.start [Samples.heard "ella"; Consumer; Samples.heard "ella"; Consumer])
                  Hs)).
Defined.

(* ===================================================================== *)
(** ** Further properties of the completion call *)
(* ===================================================================== *)

Section CompletionMore.

Variable w : World.

(** What [query_chatgpt] is once the module and a key are there: one
    assignment of the key, one request, and a result read off what the
    request did. *)
Lemma query_chatgpt_with_key (prompt : string) (st : state) (c : ascii) (k : string) :
  OPENAI_AVAILABLE w = true ->
  getenv w "OPENAI_API_KEY" = Some (String c k) ->
  query_chatgpt w prompt st =
    mkRun [SetApiKey (String c k); Request (create_request (String c k) prompt)]
          match ChatCompletion_create w (requests st) (create_request (String c k) prompt) with
          | Exn e =>
              if is_Exception e then Ok ("Error contacting ChatGPT: " ++ exc_str e)%string
              else Raise e
          | Val response =>
              match response_content response with
              | Val content => Ok content
              | Exn _ => Ok unexpected_response_message
              end
          end
          (mkState (pending st) (S (requests st))).
Proof.
  intros H Hk. unfold query_chatgpt. rewrite H, Hk. simpl.
  unfold bind, attempt, emit, ChatCompletion_create_call. simpl.
  destruct (ChatCompletion_create w (requests st) (create_request (String c k) prompt))
    as [response|e]; simpl.
  - destruct (response_content response) as [content|e] eqn:Ec; simpl; [reflexivity|].
    rewrite (response_content_exn _ _ Ec). reflexivity.
  - destruct (is_Exception e); reflexivity.
Qed.

(** X4: with the module and a key, when the completion call raises an
    exception derived from [Exception], [query_chatgpt] returns the text
    "Error contacting ChatGPT: " followed by the text of the exception, after
    exactly one request. *)
Theorem network_error_message (prompt : string) (st : state) (c : ascii) (k : string)
        (e : exc) :
  OPENAI_AVAILABLE w = true ->
  getenv w "OPENAI_API_KEY" = Some (String c k) ->
  ChatCompletion_create w (requests st) (create_request (String c k) prompt) = Exn e ->
  is_Exception e = true ->
  query_chatgpt w prompt st =
    mkRun [SetApiKey (String c k); Request (create_request (String c k) prompt)]
          (Ok ("Error contacting ChatGPT: " ++ exc_str e)%string)
          (mkState (pending st) (S (requests st))).
Proof.
  intros H Hk Hc He. rewrite (query_chatgpt_with_key prompt st c k H Hk), Hc, He.
  reflexivity.
Qed.

(** X5: an exception of the completion call that does not derive from
    [Exception] (a keyboard interrupt) is not turned into a string:
    [query_chatgpt] raises it, and the round that asked has then spoken only
    "Thinking...", prints no answer and raises it as well. *)
Theorem interrupt_propagates (text : string) (st : state) (c : ascii) (k : string)
        (e : exc) :
  OPENAI_AVAILABLE w = true ->
  getenv w "OPENAI_API_KEY" = Some (String c k) ->
  PyStr.startswith wake text = true ->
  PyStr.truthy (extract_query text) = true ->
  ChatCompletion_create w (requests st) (create_request (String c k) (extract_query text))
  = Exn e ->
  is_Exception e = false ->
  res (query_chatgpt w (extract_query text) st) = Raise e
  /\ dispatch w text st =
       mkRun [Print ("User: " ++ extract_query text); Say "Thinking..."; RunAndWait;
              SetApiKey (String c k);
              Request (create_request (String c k) (extract_query text))]
             (Raise e)
             (mkState (pending st) (S (requests st))).
Proof.
  intros H Hk Hw Hq Hc He.
  pose proof (query_chatgpt_with_key (extract_query text) st c k H Hk) as Eq.
  rewrite Hc, He in Eq. split; [now rewrite Eq|].
  rewrite (dispatch_query w text st Hw Hq).
  unfold bind, emit, speak. cbn [res final trace app]. unfold bind, emit.
  cbn [res final trace app]. rewrite Eq. reflexivity.
Qed.

(** X6: a response is read as [response['choices'][0]['message']['content']]:
    when the response is an object whose "choices" is a list that starts with
    an object whose "message" is an object whose "content" is a string,
    [query_chatgpt] returns that string stripped, whatever else the response
    holds (further choices and keys are ignored). *)
Theorem well_formed_response (prompt : string) (st : state) (c : ascii) (k : string)
        (d d1 d2 : list (string * json)) (others : list json) (content : string) :
  OPENAI_AVAILABLE w = true ->
  getenv w "OPENAI_API_KEY" = Some (String c k) ->
  ChatCompletion_create w (requests st) (create_request (String c k) prompt)
  = Val (JDict d) ->
  PyVal.dict_lookup d "choices" = Some (JList (JDict d1 :: others)) ->
  PyVal.dict_lookup d1 "message" = Some (JDict d2) ->
  PyVal.dict_lookup d2 "content" = Some (JStr content) ->
  res (query_chatgpt w prompt st) = Ok (PyStr.strip content).
Proof.
  intros H Hk Hc H0 H1 H2.
  rewrite (query_chatgpt_with_key prompt st c k H Hk), Hc. cbn [res].
  unfold response_content, and_then. cbn [PyVal.getitem_str]. rewrite H0.
  cbn [PyVal.getitem_0 PyVal.getitem_str]. rewrite H1. cbn [PyVal.getitem_str].
  rewrite H2. reflexivity.
Qed.

(** The only responses from which a content can be read. *)
Lemma response_content_shape (response : json) (s : string) :
  response_content response = Val s ->
  exists d d1 d2 others content,
    response = JDict d
    /\ PyVal.dict_lookup d "choices" = Some (JList (JDict d1 :: others))
    /\ PyVal.dict_lookup d1 "message" = Some (JDict d2)
    /\ PyVal.dict_lookup d2 "content" = Some (JStr content)
    /\ s = PyStr.strip content.
Proof.
  unfold response_content, and_then. intros H.
  destruct response as [| | | |l|d]; try discriminate.
  cbn [PyVal.getitem_str] in H.
  destruct (PyVal.dict_lookup d "choices") as [choices|] eqn:E0; [|discriminate].
  destruct choices as [| | |s0|l|d0]; try discriminate.
  - destruct s0 as [|c0 s0]; discriminate.
  - destruct l as [|choice others]; [discriminate|].
    cbn [PyVal.getitem_0] in H.
    destruct choice as [| | | |l1|d1]; try discriminate.
    cbn [PyVal.getitem_str] in H.
    destruct (PyVal.dict_lookup d1 "message") as [message|] eqn:E1; [|discriminate].
    destruct message as [| | | |l2|d2]; try discriminate.
    cbn [PyVal.getitem_str] in H.
    destruct (PyVal.dict_lookup d2 "content") as [v|] eqn:E2; [|discriminate].
    destruct v as [| | |content| |]; try discriminate.
    cbn [PyVal.call_strip] in H. inversion H; subst.
    exists d, d1, d2, others, content. repeat split; assumption.
Qed.

(** X7: a response of any other shape (no "choices", an empty list of
    choices, a choice without "message", a content that is not a string, ...)
    makes [query_chatgpt] return the fixed text "I received an unexpected
    response from ChatGPT." after its one request. *)
Theorem malformed_response (prompt : string) (st : state) (c : ascii) (k : string)
        (response : json) :
  OPENAI_AVAILABLE w = true ->
  getenv w "OPENAI_API_KEY" = Some (String c k) ->
  ChatCompletion_create w (requests st) (create_request (String c k) prompt)
  = Val response ->
  ~ (exists d d1 d2 others content,
        response = JDict d
        /\ PyVal.dict_lookup d "choices" = Some (JList (JDict d1 :: others))
        /\ PyVal.dict_lookup d1 "message" = Some (JDict d2)
        /\ PyVal.dict_lookup d2 "content" = Some (JStr content)) ->
  query_chatgpt w prompt st =
    mkRun [SetApiKey (String c k); Request (create_request (String c k) prompt)]
          (Ok unexpected_response_message)
          (mkState (pending st) (S (requests st))).
Proof.
  intros H Hk Hc Hshape.
  rewrite (query_chatgpt_with_key prompt st c k H Hk), Hc.
  destruct (response_content response) as [content|e] eqn:E; [|reflexivity].
  exfalso. apply Hshape. apply response_content_shape in E.
  destruct E as (d & d1 & d2 & others & content0 & E0 & E1 & E2 & E3 & _).
  exists d, d1, d2, others, content0. repeat split; assumption.
Qed.

(** X8: a call of [query_chatgpt] makes at most one request and never tries
    again; a request is made with the key of the environment, the model
    "gpt-3.5-turbo", the fixed system message followed by the prompt as the
    user message, and temperature 0.5; the call does not touch the audio
    schedule, and it returns or raises. *)
Theorem one_request_per_query (prompt : string) (st : state) :
  (requested (trace (query_chatgpt w prompt st)) = []
   \/ exists key,
        getenv w "OPENAI_API_KEY" = Some key
        /\ requested (trace (query_chatgpt w prompt st))
           = [mkRequest key "gpt-3.5-turbo"
                [("system", "You are ELLA, a helpful voice assistant."); ("user", prompt)]
                (1 # 2)%Q])
  /\ requests (final (query_chatgpt w prompt st))
     = requests st + length (requested (trace (query_chatgpt w prompt st)))
  /\ pending (final (query_chatgpt w prompt st)) = pending st
  /\ res (query_chatgpt w prompt st) <> Running.
Proof.
  destruct (OPENAI_AVAILABLE w) eqn:H.
  2:{ rewrite (query_chatgpt_unavailable w prompt st H). cbn.
      repeat split; auto; discriminate. }
  destruct (getenv w "OPENAI_API_KEY") as [[|c k]|] eqn:Hk.
  - rewrite (query_chatgpt_no_key w prompt st H (or_intror Hk)). cbn.
    repeat split; auto; discriminate.
  - rewrite (query_chatgpt_with_key prompt st c k H Hk). cbn [trace final res requested].
    split; [right; exists (String c k); split; reflexivity|].
    split; [cbn; lia|]. split; [reflexivity|].
    destruct (ChatCompletion_create w (requests st) (create_request (String c k) prompt))
      as [response|e].
    + destruct (response_content response); discriminate.
    + destruct (is_Exception e); discriminate.
  - rewrite (query_chatgpt_no_key w prompt st H (or_introl Hk)). cbn.
    repeat split; auto; discriminate.
Qed.

End CompletionMore.

Lemma network_error_message_witness :
  query_chatgpt Samples.unreachable_world "what time is it" (Samples.start []) =
    mkRun [SetApiKey "sk-test"; Request (create_request "sk-test" "what time is it")]
          (Ok "Error contacting ChatGPT: Error communicating with OpenAI")
          (mkState [] 1).
Proof.
  exact (network_error_message Samples.unreachable_world "what time is it"
           (Samples.start []) "s"%char "k-test"
           (mkExc (OtherException "APIConnectionError") "Error communicating with OpenAI")
           eq_refl eq_refl eq_refl eq_refl).
Defined.

Lemma interrupt_propagates_witness :
  res (dispatch Samples.interrupted_world "ella what time is it" (Samples.start []))
  = Raise (mkExc KeyboardInterrupt EmptyString)
  /\ spoken (trace (dispatch Samples.interrupted_world "ella what time is it"
                      (Samples.start [])))
     = ["Thinking..."%string].
Proof.
  pose proof (proj2 (interrupt_propagates Samples.interrupted_world "ella what time is it"
                       (Samples.start []) "s"%char "k-test"
                       (mkExc KeyboardInterrupt EmptyString)
                       eq_refl eq_refl eq_refl eq_refl eq_refl eq_refl)) as H.
  rewrite H. split; reflexivity.
Defined.

Lemma well_formed_response_witness :
  res (query_chatgpt Samples.pi_world "what time is it" (Samples.start []))
  = Ok (PyStr.strip " It is noon. ").
Proof.
  exact (well_formed_response Samples.pi_world "what time is it" (Samples.start [])
           "s"%char "k-test"
           [("choices"%string,
             JList [JDict [("message"%string,
                            JDict [("content"%string, JStr " It is noon. ")])]])]
           [("message"%string, JDict [("content"%string, JStr " It is noon. ")])]
           [("content"%string, JStr " It is noon. ")]
           [] " It is noon. "
           eq_refl eq_refl eq_refl eq_refl eq_refl eq_refl).
Defined.

Lemma malformed_response_witness :
  query_chatgpt Samples.no_choice_world "what time is it" (Samples.start []) =
    mkRun [SetApiKey "sk-test"; Request (create_request "sk-test" "what time is it")]
          (Ok unexpected_response_message)
          (mkState [] 1).
Proof.
  refine (malformed_response Samples.no_choice_world "what time is it" (Samples.start [])
            "s"%char "k-test" (JDict [("choices"%string, JList [])])
            eq_refl eq_refl eq_refl _).
  intros (d & d1 & d2 & others & content & E0 & E1 & _).
  injection E0 as <-. discriminate E1.
Defined.

(* ===================================================================== *)
(** ** Further properties of the loop and of the start *)
(* ===================================================================== *)

Section LoopMore.

Variable w : World.

(** The query path of [dispatch] as a run. *)
Lemma dispatch_query_run (text : string) (st : state) :
  PyStr.startswith wake text = true ->
  PyStr.truthy (extract_query text) = true ->
  dispatch w text st =
    let q := query_chatgpt w (extract_query text) st in
    mkRun ([Print ("User: " ++ extract_query text); Say "Thinking..."; RunAndWait]
             ++ trace q
             ++ match res q with
                | Ok answer => [Print ("ELLA: " ++ answer); Say answer; RunAndWait]
                | _ => []
                end)
          match res q with
          | Ok _ => Ok tt
          | Raise e => Raise e
          | Running => Running
          end
          (final q).
Proof.
  intros H Hq. rewrite (dispatch_query w text st H Hq).
  unfold bind, emit, speak. cbn [res final trace app]. unfold bind, emit.
  cbn [res final trace app].
  destruct (res (query_chatgpt w (extract_query text) st));
    cbn [res final trace app]; rewrite ?app_nil_r; reflexivity.
Qed.

Lemma query_chatgpt_not_running (prompt : string) (st : state) :
  res (query_chatgpt w prompt st) <> Running.
Proof.
  unfold query_chatgpt.
  destruct (OPENAI_AVAILABLE w); simpl; [|discriminate].
  destruct (getenv w "OPENAI_API_KEY") as [[|c k]|]; try discriminate.
  unfold bind, attempt, emit, ChatCompletion_create_call. simpl.
  destruct (ChatCompletion_create w (requests st) (create_request (String c k) prompt))
    as [response|e]; simpl.
  - destruct (response_content response) as [content|e]; simpl; [discriminate|].
    destruct (is_Exception e); discriminate.
  - destruct (is_Exception e); discriminate.
Qed.

(** Dispatching leaves the audio schedule alone and returns or raises. *)
Lemma dispatch_footprint (text : string) (st : state) :
  pending (final (dispatch w text st)) = pending st
  /\ res (dispatch w text st) <> Running.
Proof.
  destruct (PyStr.startswith wake text) eqn:Hw.
  2:{ rewrite (dispatch_no_wake w text st Hw). split; [reflexivity|discriminate]. }
  destruct (PyStr.truthy (extract_query text)) eqn:Hq.
  2:{ rewrite (dispatch_bare w text st Hw);
        [|destruct (extract_query text); [reflexivity|discriminate]].
      split; [reflexivity|discriminate]. }
  rewrite (dispatch_query_run text st Hw Hq). cbv zeta. cbn [final res].
  split; [exact (proj2 (query_chatgpt_quiet w (extract_query text) st))|].
  pose proof (query_chatgpt_not_running (extract_query text) st) as Hr.
  destruct (res (query_chatgpt w (extract_query text) st)); congruence.
Qed.

(** X9: whatever the text, one round of dispatching leaves the audio
    schedule alone, returns or raises, calls [tts_engine.say] at most twice,
    and makes a completion request only after it has said "Thinking...". *)
Theorem dispatch_bounds (text : string) (st : state) :
  pending (final (dispatch w text st)) = pending st
  /\ res (dispatch w text st) <> Running
  /\ length (spoken (trace (dispatch w text st))) <= 2
  /\ (requested (trace (dispatch w text st)) = []
      \/ exists others, spoken (trace (dispatch w text st)) = "Thinking..."%string :: others).
Proof.
  destruct (PyStr.startswith wake text) eqn:Hw.
  2:{ rewrite (dispatch_no_wake w text st Hw). cbn.
      repeat split; auto; discriminate. }
  destruct (PyStr.truthy (extract_query text)) eqn:Hq.
  2:{ rewrite (dispatch_bare w text st Hw); [|destruct (extract_query text); [reflexivity|discriminate]].
      cbn. repeat split; auto; discriminate. }
  rewrite (dispatch_query_run text st Hw Hq). cbv zeta. cbn [final res trace].
  destruct (query_chatgpt_quiet w (extract_query text) st) as (Hs & Hp).
  pose proof (query_chatgpt_not_running (extract_query text) st) as Hr.
  split; [exact Hp|]. split.
  - destruct (res (query_chatgpt w (extract_query text) st)); congruence.
  - cbn [app spoken]. rewrite spoken_app, Hs. split.
    + destruct (res (query_chatgpt w (extract_query text) st)); simpl; lia.
    + right. eexists. reflexivity.
Qed.

(** A round whose capture does not return ends the loop as the capture
    ended. *)
Lemma main_loop_stop (model : string) (rounds : nat) (st : state) :
  (forall text, res (listen_and_transcribe w model 16000 st) <> Ok text) ->
  main_loop w model (S rounds) st =
    mkRun (Print listening_prompt :: trace (listen_and_transcribe w model 16000 st))
          match res (listen_and_transcribe w model 16000 st) with
          | Raise e => Raise e
          | _ => Running
          end
          (final (listen_and_transcribe w model 16000 st)).
Proof.
  intros H. cbn [main_loop]. unfold bind at 1 2 3. unfold emit. cbn [res final trace].
  destruct (res (listen_and_transcribe w model 16000 st)) as [text| |] eqn:E;
    [exfalso; now apply (H text)| |]; reflexivity.
Qed.

(** A capture that is still running has gone through the whole schedule. *)
Lemma listen_loop_running (sched : list action) :
  forall (q fed : list frame) tr rest q_end,
    listen_loop w q fed sched = (tr, Running, rest, q_end) -> rest = [].
Proof.
  induction sched as [|a sched IH]; intros q fed tr rest q_end H.
  - simpl in H. now inversion H.
  - destruct a as [indata status|].
    + simpl in H.
      destruct (listen_loop w (q ++ [indata]) fed sched) as [[[tr1 o1] rest1] q1] eqn:E.
      inversion H; subst. eapply IH; eassumption.
    + simpl in H. destruct q as [|data q']; [eapply IH; eassumption|].
      destruct (AcceptWaveform w (fed ++ [data])).
      * destruct (result_text (Result w (fed ++ [data]))) as [text|e]; [|discriminate].
        destruct (PyStr.truthy text); [discriminate|].
        destruct (listen_loop w q' (fed ++ [data]) sched)
          as [[[tr1 o1] rest1] q1] eqn:E.
        inversion H; subst. eapply IH; eassumption.
      * destruct (listen_loop w q' (fed ++ [data]) sched)
          as [[[tr1 o1] rest1] q1] eqn:E.
        inversion H; subst. eapply IH; eassumption.
Qed.

Lemma listen_and_transcribe_progress (model : string) (samplerate : N) (st : state) :
  (res (listen_and_transcribe w model samplerate st) = Running ->
   pending (final (listen_and_transcribe w model samplerate st)) = [])
  /\ (res (listen_and_transcribe w model samplerate st) <> Running ->
      length (pending (final (listen_and_transcribe w model samplerate st))) + 2
      <= length (pending st)).
Proof.
  unfold listen_and_transcribe.
  destruct (listen_loop w [] [] (pending st)) as [[[tr o] rest] q_end] eqn:E.
  cbn [res final pending]. split.
  - intros ->. eapply listen_loop_running; eassumption.
  - intros Ho. exact (listen_loop_progress w _ _ _ _ _ _ _ E Ho).
Qed.

Lemma main_loop_not_ok (model : string) (rounds : nat) (st : state) :
  res (main_loop w model rounds st) <> Ok tt.
Proof.
  revert st. induction rounds as [|rounds IH]; intros st; [discriminate|].
  destruct (res (listen_and_transcribe w model 16000 st)) as [text|e|] eqn:El.
  - rewrite (main_loop_round w model rounds st text El). cbv zeta.
    destruct (res (dispatch w text (final (listen_and_transcribe w model 16000 st))));
      cbn [res]; [apply IH|discriminate|discriminate].
  - rewrite main_loop_stop by (intros text; rewrite El; discriminate).
    rewrite El. discriminate.
  - rewrite main_loop_stop by (intros text; rewrite El; discriminate).
    rewrite El. discriminate.
Qed.

(** X10: the loop of [main] never returns: however many rounds are observed
    it is still running or it has raised.  Every round that ends took at least
    one callback and one round of the consumer, so when the rounds observed
    exceed half the length of the schedule, a loop that is still running has
    gone through all the audio there was and waits for more. *)
Theorem main_loop_never_returns (model : string) (rounds : nat) (st : state) :
  res (main_loop w model rounds st) <> Ok tt
  /\ (length (pending st) < 2 * rounds ->
      res (main_loop w model rounds st) = Running ->
      pending (final (main_loop w model rounds st)) = []).
Proof.
  revert st. induction rounds as [|rounds IH]; intros st.
  - split; [discriminate|]. simpl. lia.
  - destruct (listen_and_transcribe_progress model 16000 st) as [Hrun Hprog].
    destruct (res (listen_and_transcribe w model 16000 st)) as [text|e|] eqn:El.
    + rewrite (main_loop_round w model rounds st text El). cbv zeta.
      destruct (dispatch_footprint text (final (listen_and_transcribe w model 16000 st)))
        as (Hp & Hr).
      destruct (res (dispatch w text (final (listen_and_transcribe w model 16000 st))))
        as [[]|e|] eqn:Ed; cbn [res final].
      * destruct (IH (final (dispatch w text (final (listen_and_transcribe w model 16000 st)))))
          as [IH1 IH2].
        split; [exact IH1|]. intros Hlen. apply IH2. rewrite Hp.
        assert (Hq : length (pending (final (listen_and_transcribe w model 16000 st))) + 2
                     <= length (pending st)) by (apply Hprog; discriminate).
        lia.
      * split; discriminate.
      * congruence.
    + rewrite main_loop_stop by (intros text; rewrite El; discriminate).
      rewrite El. cbn [res]. split; discriminate.
    + rewrite main_loop_stop by (intros text; rewrite El; discriminate).
      rewrite El. cbn [res final]. split; [discriminate|]. intros _ _. now apply Hrun.
Qed.

End LoopMore.

Lemma main_loop_never_returns_witness :
  length (pending (Samples.start [Samples.heard "good morning"; Consumer])) < 2 * 2
  /\ res (main_loop Samples.pi_world "vosk-en" 2
            (Samples.start [Samples.heard "good morning"; Consumer])) = Running
  /\ pending (final (main_loop Samples.pi_world "vosk-en" 2
                       (Samples.start [Samples.heard "good morning"; Consumer]))) = [].
Proof.
  split; [simpl; lia|]. split; [reflexivity|].
  apply (proj2 (main_loop_never_returns Samples.pi_world "vosk-en" 2
                  (Samples.start [Samples.heard "good morning"; Consumer])));
    [simpl; lia|reflexivity].
Defined.

Section CrashAndStart.

Variable w : World.


Lemma listen_loop_raises (sched : list action) :
  forall (q fed : list frame) tr e rest q_end,
    listen_loop w q fed sched = (tr, Raise e, rest, q_end) ->
    AcceptWaveform w (fed ++ popped tr) = true
    /\ result_text (Result w (fed ++ popped tr)) = Exn e.
Proof.
  induction sched as [|a sched IH]; intros q fed tr e rest q_end H.
  - simpl in H. inversion H.
  - destruct a as [indata status|].
    + simpl in H.
      destruct (listen_loop w (q ++ [indata]) fed sched) as [[[tr1 o1] rest1] q1] eqn:E.
      inversion H; subst. apply IH in E.
      destruct (callback_events_pushed indata status) as (_ & Hg & _).
      rewrite popped_app, Hg. exact E.
    + simpl in H. destruct q as [|data q'].
      * eapply IH; eassumption.
      * assert (Hrec : forall tr1 rest1 q1,
                   listen_loop w q' (fed ++ [data]) sched = (tr1, Raise e, rest1, q1) ->
                   AcceptWaveform w (fed ++ popped (Get data :: tr1)) = true
                   /\ result_text (Result w (fed ++ popped (Get data :: tr1))) = Exn e).
        { intros tr1 rest1 q1 E. apply IH in E. cbn [popped].
          replace (fed ++ data :: popped tr1) with ((fed ++ [data]) ++ popped tr1)
            by (rewrite <- app_assoc; reflexivity).
          exact E. }
        destruct (AcceptWaveform w (fed ++ [data])) eqn:Ea.
        -- destruct (result_text (Result w (fed ++ [data]))) as [t|e0] eqn:Et.
           ++ destruct (PyStr.truthy t) eqn:Ett.
              ** inversion H.
              ** destruct (listen_loop w q' (fed ++ [data]) sched)
                   as [[[tr1 o1] rest1] q1] eqn:E.
                 inversion H; subst. eapply Hrec; reflexivity.
           ++ inversion H; subst. cbn [popped]. split; assumption.
        -- destruct (listen_loop w q' (fed ++ [data]) sched)
             as [[[tr1 o1] rest1] q1] eqn:E.
           inversion H; subst. eapply Hrec; reflexivity.
Qed.


(** X12: when the model directory exists and Vosk loads it, [main] loads the
    model, starts the speech engine and speaks the greeting once, in that
    order and before anything else, then runs its loop; it never returns. *)
Theorem startup_greets_then_loops (rounds : nat) (st : state) :
  isdir w (model_dir w) = true ->
  vosk_Model w (model_dir w) = None ->
  main w rounds st =
    mkRun ([LoadModel (model_dir w); TtsInit; Say greeting; RunAndWait]
             ++ trace (main_loop w (model_dir w) rounds st))
          (res (main_loop w (model_dir w) rounds st))
          (final (main_loop w (model_dir w) rounds st))
  /\ res (main w rounds st) <> Ok tt.
Proof.
  intros Hd Hm.
  assert (E : main w rounds st =
              mkRun ([LoadModel (model_dir w); TtsInit; Say greeting; RunAndWait]
                       ++ trace (main_loop w (model_dir w) rounds st))
                    (res (main_loop w (model_dir w) rounds st))
                    (final (main_loop w (model_dir w) rounds st))).
  { unfold main, bind, attempt, load_vosk_model. rewrite Hd. cbn [negb].
    unfold bind, emit, speak. cbn [res final trace]. rewrite Hm.
    unfold bind, emit. cbn [res final trace ret app].
    destruct (res (main_loop w (model_dir w) rounds st)); reflexivity. }
  split; [exact E|]. rewrite E. cbn [res].
  exact (main_loop_not_ok w (model_dir w) rounds st).
Qed.

(** X13: when the model directory exists but [vosk.Model] raises, [main]
    handles the exception only if it is a [FileNotFoundError] (it prints its
    text and the hint, and returns); any other exception leaves [main] right
    after the load attempt: nothing is printed, the speech engine is not
    started, and the process ends with a non-zero status. *)
Theorem model_load_failure (rounds : nat) (st : state) (e : exc) :
  isdir w (model_dir w) = true ->
  vosk_Model w (model_dir w) = Some e ->
  main w rounds st =
    (if is_FileNotFoundError e
     then mkRun [LoadModel (model_dir w); PrintErr (exc_str e); Print download_hint]
                (Ok tt) st
     else mkRun [LoadModel (model_dir w)] (Raise e) st)
  /\ (is_FileNotFoundError e = false ->
      exists n, exit_status (res (main w rounds st)) = Some n /\ n <> 0%N).
Proof.
  intros Hd Hm.
  assert (E : main w rounds st =
              (if is_FileNotFoundError e
               then mkRun [LoadModel (model_dir w); PrintErr (exc_str e); Print download_hint]
                          (Ok tt) st
               else mkRun [LoadModel (model_dir w)] (Raise e) st)).
  { unfold main, bind, attempt, load_vosk_model. rewrite Hd. cbn [negb].
    unfold bind, emit. cbn [res final trace]. rewrite Hm.
    unfold raise. cbn [res final trace].
    destruct (is_FileNotFoundError e); reflexivity. }
  split; [exact E|]. intros Hf. rewrite E, Hf. cbn [res exit_status].
  destruct (is_Exception e); eexists; split; try reflexivity; discriminate.
Qed.

End CrashAndStart.


Lemma startup_greets_then_loops_witness :
  isdir Samples.pi_world (model_dir Samples.pi_world) = true
  /\ vosk_Model Samples.pi_world (model_dir Samples.pi_world) = None
  /\ res (main Samples.pi_world 1 (Samples.start [Samples.heard "ella"; Consumer])) <> Ok tt.
Proof.
  split; [reflexivity|]. split; [reflexivity|].
  exact (proj2 (startup_greets_then_loops Samples.pi_world 1
                  (Samples.start [Samples.heard "ella"; Consumer]) eq_refl eq_refl)).
Defined.

Lemma model_load_failure_witness :
  isdir Samples.broken_model_world (model_dir Samples.broken_model_world) = true
  /\ main Samples.broken_model_world 1 (Samples.start [])
     = mkRun [LoadModel (model_dir Samples.broken_model_world)]
             (Raise (mkExc (OtherException "Exception") "Failed to create a model"))
             (Samples.start []).
Proof.
  split; [reflexivity|].
  exact (proj1 (model_load_failure Samples.broken_model_world 1 (Samples.start [])
                  (mkExc (OtherException "Exception") "Failed to create a model")
                  eq_refl eq_refl)).
Defined.

(* ===================================================================== *)
(** ** Further properties of the query and of the model directory *)
(* ===================================================================== *)

Module QueryShape.
Import PyStr.
Local Open Scope string_scope.

Lemma append_assoc (a b c : string) : (a ++ b) ++ c = a ++ b ++ c.
Proof. induction a as [|x a IH]; simpl; [reflexivity|now rewrite IH]. Qed.

Lemma append_nil_r (a : string) : a ++ EmptyString = a.
Proof. induction a as [|x a IH]; simpl; [reflexivity|now rewrite IH]. Qed.

Section Strip.

Variable p : ascii -> bool.

Lemma lstrip_by_app_all (ws s : string) :
  all_chars p ws = true -> lstrip_by p (ws ++ s) = lstrip_by p s.
Proof.
  induction ws as [|c ws IH]; simpl; [reflexivity|].
  intros H. apply andb_prop in H. destruct H as [Hc Hws].
  rewrite Hc. now apply IH.
Qed.

Lemma rstrip_by_all (ws : string) :
  all_chars p ws = true -> rstrip_by p ws = EmptyString.
Proof.
  induction ws as [|c ws IH]; simpl; [reflexivity|].
  intros H. apply andb_prop in H. destruct H as [Hc Hws].
  rewrite (IH Hws), Hc. reflexivity.
Qed.

Lemma rstrip_by_app_all (s ws : string) :
  all_chars p ws = true -> rstrip_by p (s ++ ws) = rstrip_by p s.
Proof.
  intros H. induction s as [|c s IH]; simpl.
  - now apply rstrip_by_all.
  - now rewrite IH.
Qed.

(** What [lstrip_by] leaves ends as the string ended. *)
Lemma lstrip_by_last_inv (s : string) (c : ascii) :
  last_char (lstrip_by p s) = Some c -> last_char s = Some c.
Proof.
  induction s as [|d s IH]; simpl; [discriminate|].
  destruct (p d).
  - intros H. specialize (IH H). destruct s; [discriminate|exact IH].
  - intros H. exact H.
Qed.

End Strip.

Lemma last_char_app (s t : string) :
  t <> EmptyString -> last_char (s ++ t) = last_char t.
Proof.
  intros Ht. induction s as [|c s IH]; [reflexivity|].
  simpl. destruct (s ++ t) eqn:E; [|exact IH].
  destruct s; simpl in E; [contradiction|discriminate].
Qed.

(** Whitespace around a text that [strip] leaves alone is what [strip]
    removes. *)
Lemma strip_padded (ws y ws' : string) :
  all_chars isspace ws = true -> all_chars isspace ws' = true ->
  strip y = y -> strip (ws ++ y ++ ws') = y.
Proof.
  intros Hws Hws' Hy. unfold strip.
  rewrite <- append_assoc, (rstrip_by_app_all isspace _ _ Hws').
  destruct y as [|c y].
  - rewrite append_nil_r, (rstrip_by_all isspace _ Hws). reflexivity.
  - assert (Hne : strip (String c y) <> EmptyString) by (rewrite Hy; discriminate).
    destruct (PyStrFacts.strip_edges _ Hne) as (a & b & Ha & Hb & Hsa & Hsb).
    rewrite Hy in Ha, Hb.
    rewrite PyStrFacts.rstrip_by_fixed.
    + rewrite (lstrip_by_app_all isspace _ _ Hws).
      apply PyStrFacts.lstrip_by_fixed. now rewrite Ha.
    + rewrite last_char_app by discriminate. now rewrite Hb.
Qed.

(** X14: an utterance made of the wake word, any whitespace, any run of the
    characters , . : ; ! and then a query, with any whitespace after it,
    gives exactly that query, provided the query does not itself start with
    one of those characters and the run followed by the query has no
    whitespace at either end. *)
Theorem extract_query_normal_form (ws punct q ws' : string) :
  all_chars isspace ws = true ->
  all_chars isspace ws' = true ->
  all_chars (fun c => mem c ",.:;!") punct = true ->
  strip (punct ++ q) = punct ++ q ->
  lstrip ",.:;!" q = q ->
  extract_query ("ella" ++ ws ++ (punct ++ q) ++ ws') = q.
Proof.
  intros Hws Hws' Hp Hs Hq.
  change (extract_query ("ella" ++ ws ++ (punct ++ q) ++ ws'))
    with (lstrip ",.:;!" (strip (ws ++ (punct ++ q) ++ ws'))).
  rewrite (strip_padded ws (punct ++ q) ws' Hws Hws' Hs).
  unfold lstrip. rewrite (lstrip_by_app_all _ punct q Hp). exact Hq.
Qed.

Lemma extract_query_normal_form_witness :
  extract_query ("ella" ++ "  " ++ (",.!" ++ "what's up?") ++ " ") = "what's up?".
Proof.
  exact (extract_query_normal_form "  " ",.!" "what's up?" " "
           eq_refl eq_refl eq_refl eq_refl eq_refl).
Defined.

(** X15: whatever the utterance, the extracted query does not start with one
    of the characters , . : ; ! and does not end with whitespace. *)
Theorem extract_query_edges (text : string) :
  (forall c, first_char (extract_query text) = Some c -> mem c ",.:;!" = false)
  /\ (forall c, last_char (extract_query text) = Some c -> isspace c = false).
Proof.
  unfold extract_query, lstrip, strip. split; intros c H.
  - exact (PyStrFacts.lstrip_by_first (fun c => mem c ",.:;!") _ _ H).
  - apply lstrip_by_last_inv in H. apply lstrip_by_last_inv in H.
    exact (PyStrFacts.rstrip_by_last _ _ _ H).
Qed.

Lemma extract_query_edges_witness :
  first_char (extract_query "ella, , tell me a joke ") = Some " "%char
  /\ mem " "%char ",.:;!" = false
  /\ last_char (extract_query "ella, , tell me a joke ") = Some "e"%char
  /\ isspace "e"%char = false.
Proof.
  split; [reflexivity|]. split.
  - exact (proj1 (extract_query_edges "ella, , tell me a joke ") " "%char eq_refl).
  - split; [reflexivity|].
    exact (proj2 (extract_query_edges "ella, , tell me a joke ") "e"%char eq_refl).
Defined.

End QueryShape.

Module ModelPath.
Import PyStr PosixPath.
Local Open Scope string_scope.

Lemma endswith_char_app (c : ascii) (s t : string) :
  t <> EmptyString -> endswith_char c (s ++ t) = endswith_char c t.
Proof.
  intros Ht. induction s as [|d s IH]; [reflexivity|].
  simpl. destruct (s ++ t) eqn:E; [|exact IH].
  destruct s; simpl in E; [contradiction|discriminate].
Qed.

Lemma truthy_app (s t : string) : truthy t = true -> truthy (s ++ t) = true.
Proof. destruct s; simpl; auto. Qed.

(** Joining a component that is not absolute onto a path that does not end
    with a slash. *)
Lemma join_step_relative (path tail b : string) :
  tail <> EmptyString -> endswith_char sep tail = false ->
  startswith (String sep EmptyString) b = false ->
  join_step (path ++ tail) b = path ++ tail ++ String sep b.
Proof.
  intros Ht He Hb. unfold join_step. rewrite Hb.
  rewrite (endswith_char_app sep path tail Ht), He.
  rewrite truthy_app by (destruct tail; [contradiction|reflexivity]).
  simpl. apply QueryShape.append_assoc.
Qed.

Lemma head_no_sep (p : string) : mem sep p = false -> head_upto_last_sep p = EmptyString.
Proof.
  induction p as [|c p IH]; [reflexivity|].
  cbn [mem head_upto_last_sep].
  intros H. apply orb_false_elim in H. destruct H as [Hc Hp].
  rewrite (IH Hp). rewrite Ascii.eqb_sym in Hc. now rewrite Hc.
Qed.

Lemma head_upto_last_sep_split (dir name : string) :
  mem sep name = false ->
  head_upto_last_sep (dir ++ String sep name) = dir ++ String sep EmptyString.
Proof.
  intros Hn. induction dir as [|c dir IH].
  - cbn [append head_upto_last_sep]. rewrite (head_no_sep _ Hn).
    now rewrite Ascii.eqb_refl.
  - cbn [append head_upto_last_sep]. rewrite IH.
    destruct dir; reflexivity.
Qed.

Lemma all_sep_false (dir tail : string) :
  dir <> EmptyString -> endswith_char sep dir = false -> all_sep (dir ++ tail) = false.
Proof.
  induction dir as [|c dir IH]; [congruence|]. intros _ He.
  cbn [append all_sep]. destruct dir as [|d dir].
  - cbn [endswith_char] in He. rewrite Ascii.eqb_sym in He. now rewrite He.
  - rewrite IH; [apply andb_false_r|discriminate|exact He].
Qed.

Lemma endswith_char_last (c : ascii) (s : string) :
  endswith_char c s = false ->
  match last_char s with
  | Some d => mem d (String c EmptyString) = false
  | None => True
  end.
Proof.
  induction s as [|d t IH]; [intros _; exact I|]. destruct t as [|e t'].
  - cbn [endswith_char last_char mem]. intros H.
    rewrite Ascii.eqb_sym, H. reflexivity.
  - exact IH.
Qed.

Lemma dirname_split (dir name : string) :
  endswith_char sep dir = false -> mem sep name = false ->
  dirname (dir ++ String sep name)
  = match dir with EmptyString => String sep EmptyString | _ => dir end.
Proof.
  intros Hd Hn. unfold dirname. rewrite (head_upto_last_sep_split dir name Hn).
  destruct dir as [|c dir]; [reflexivity|].
  rewrite truthy_app by reflexivity.
  rewrite all_sep_false by (discriminate || exact Hd). cbn [andb negb].
  unfold rstrip.
  rewrite QueryShape.rstrip_by_app_all by reflexivity.
  apply PyStrFacts.rstrip_by_fixed. exact (endswith_char_last sep _ Hd).
Qed.

(** X16: the model directory is found from the place of the script, not from
    the working directory: it is the directory part of [__file__] followed by
    "/../models/vosk-en" (without the first slash when that part is empty or
    ends with a slash); for a script whose [__file__] is a directory, a slash
    and a file name, it is that directory followed by "/../models/vosk-en". *)
Theorem model_dir_relative_to_script (w : World) :
  model_dir w =
    (if truthy (dirname (dunder_file w)) && negb (endswith_char sep (dirname (dunder_file w)))
     then dirname (dunder_file w) ++ "/../models/vosk-en"
     else dirname (dunder_file w) ++ "../models/vosk-en")
  /\ (forall dir name : string,
         dunder_file w = dir ++ String sep name ->
         endswith_char sep dir = false ->
         mem sep name = false ->
         model_dir w = dir ++ "/../models/vosk-en").
Proof.
  assert (E : forall d,
             join d [".."; "models"; "vosk-en"] =
               (if truthy d && negb (endswith_char sep d)
                then d ++ "/../models/vosk-en" else d ++ "../models/vosk-en")).
  { intros d. unfold join. cbn [fold_left].
    assert (E1 : join_step d ".." =
                 (if truthy d && negb (endswith_char sep d) then d ++ "/" else d) ++ "..").
    { unfold join_step. cbn [startswith String.prefix].
      destruct (truthy d); destruct (endswith_char sep d); simpl;
        rewrite ?QueryShape.append_assoc; reflexivity. }
    rewrite E1.
    rewrite (join_step_relative _ ".." "models") by (discriminate || reflexivity).
    unfold sep. cbn [append].
    rewrite (join_step_relative _ "../models" "vosk-en") by (discriminate || reflexivity).
    unfold sep.
    destruct (truthy d && negb (endswith_char "/" d));
      rewrite ?QueryShape.append_assoc; reflexivity. }
  split; [apply E|].
  intros dir name Hf Hd Hn. unfold model_dir. rewrite E, Hf.
  rewrite (dirname_split dir name Hd Hn).
  destruct dir as [|c dir]; [reflexivity|].
  rewrite Hd. reflexivity.
Qed.

Lemma model_dir_relative_to_script_witness :
  dunder_file Samples.pi_world = "/home/pi/ella/src" ++ String sep "main.py"
  /\ endswith_char sep "/home/pi/ella/src" = false
  /\ mem sep "main.py" = false
  /\ model_dir Samples.pi_world = "/home/pi/ella/src" ++ "/../models/vosk-en".
Proof.
  split; [reflexivity|]. split; [reflexivity|]. split; [reflexivity|].
  exact (proj2 (model_dir_relative_to_script Samples.pi_world)
               "/home/pi/ella/src" "main.py" eq_refl eq_refl eq_refl).
Defined.

End ModelPath.
